(** * traefik-forward-auth: validators and server lifecycle

  A shallow embedding of [pkg/utils/validators/validators.go] and of the
  TLS-resolution and supervision code of [pkg/server] (the [Server] type
  with [Run], [startAppServer], [startMetricsServer], [loadTLSConfig]),
  followed by the properties established about them. *)

From Stdlib Require Import String Ascii List ZArith Bool Lia.
Import ListNotations.

Local Open Scope string_scope.
Local Open Scope Z_scope.

(** ** Go primitives used by the embedded code *)

Module Go.

(** [len(s)] of a Go string: its number of bytes. *)
Definition len (s : string) : Z := Z.of_nat (String.length s).

(** [s[i]]: the byte at index [i]; [None] stands for the run-time panic
    "index out of range". *)
Definition index (s : string) (i : Z) : option ascii :=
  if i <? 0 then None else String.get (Z.to_nat i) s.

(** Unsigned comparison of two bytes, [a <= b]. *)
Definition byte_le (a b : ascii) : bool := Ascii.leb a b.

(** Go's [error] interface: values made by [errors.New], and values made by
    [fmt.Errorf] with a [%w] verb, which keep the error they wrap. *)
Inductive error : Type :=
| errors_New (msg : string)
| Errorf_w (msg : string) (wrapped : error).

(** [errors.Unwrap]. *)
Definition Unwrap (e : error) : option error :=
  match e with
  | errors_New _ => None
  | Errorf_w _ w => Some w
  end.

(** A call returning [(T, error)]. *)
Inductive result (T : Type) : Type :=
| Ok (v : T)
| Err (e : error).
Arguments Ok {T} v.
Arguments Err {T} e.

End Go.

(** ** Package regexp, as far as the validators use it *)

Module regexp.
Import Go.

(** A parsed pattern, with the operators of regexp/syntax that [emailRe]
    needs.  A character class is a list of inclusive byte ranges.  Every
    class of [emailRe] is within ASCII, so a byte of a multi-byte rune is in
    none of them, and matching byte by byte agrees with matching rune by
    rune. *)
Inductive Regexp : Type :=
| NoMatch
| EmptyMatch
| CharClass (ranges : list (ascii * ascii))
| Concat (a b : Regexp)
| Alternate (a b : Regexp)
| Star (a : Regexp).

(** [x+], [x?] and a literal byte. *)
Definition Plus (a : Regexp) : Regexp := Concat a (Star a).
Definition Quest (a : Regexp) : Regexp := Alternate EmptyMatch a.
Definition Literal (c : ascii) : Regexp := CharClass [(c, c)].

(** [x{0,n}], written out as regexp/syntax simplifies it:
    [(x(x(...)?)?)?]. *)
Fixpoint Repeat0 (n : nat) (a : Regexp) : Regexp :=
  match n with
  | O => EmptyMatch
  | S n' => Quest (Concat a (Repeat0 n' a))
  end.

Definition in_class (ranges : list (ascii * ascii)) (c : ascii) : bool :=
  existsb (fun r => byte_le (fst r) c && byte_le c (snd r)) ranges.

(** Whether the pattern matches the empty text. *)
Fixpoint nullable (r : Regexp) : bool :=
  match r with
  | NoMatch => false
  | EmptyMatch => true
  | CharClass _ => false
  | Concat a b => nullable a && nullable b
  | Alternate a b => nullable a || nullable b
  | Star _ => true
  end.

(** The pattern for what may follow the byte [c]. *)
Fixpoint deriv (c : ascii) (r : Regexp) : Regexp :=
  match r with
  | NoMatch => NoMatch
  | EmptyMatch => NoMatch
  | CharClass rs => if in_class rs c then EmptyMatch else NoMatch
  | Concat a b =>
      if nullable a then Alternate (Concat (deriv c a) b) (deriv c b)
      else Concat (deriv c a) b
  | Alternate a b => Alternate (deriv c a) (deriv c b)
  | Star a => Concat (deriv c a) (Star a)
  end.

(** [re.MatchString(s)] for a pattern anchored by [^] and [$] (without the
    multi-line flag, [$] is the end of the text): the whole of [s] is in the
    language of the pattern. *)
Fixpoint MatchString (re : Regexp) (s : string) : bool :=
  match s with
  | EmptyString => nullable re
  | String c s' => MatchString (deriv c re) s'
  end.

End regexp.

(** ** Package validators *)

Module validators.
Import Go.

(** The character classes of [emailRe]: the local part (in the source,
    [\/] is the slash and [\x60] the backquote), [[a-zA-Z0-9]] and
    [[a-zA-Z0-9-]]. *)
Definition email_local : list (ascii * ascii) :=
  [("a", "z"); ("A", "Z"); ("0", "9"); (".", "."); ("!", "!"); ("#", "#");
   ("$", "$"); ("%", "%"); ("&", "&"); ("'", "'"); ("*", "*"); ("+", "+");
   ("/", "/"); ("=", "="); ("?", "?"); ("^", "^"); ("_", "_"); ("`", "`");
   ("{", "{"); ("|", "|"); ("}", "}"); ("~", "~"); ("-", "-")]%char.

Definition email_alnum : list (ascii * ascii) :=
  [("a", "z"); ("A", "Z"); ("0", "9")]%char.

Definition email_alnum_hyphen : list (ascii * ascii) :=
  [("a", "z"); ("A", "Z"); ("0", "9"); ("-", "-")]%char.

(** [[a-zA-Z0-9](?:[a-zA-Z0-9-]{0,61}[a-zA-Z0-9])?], which occurs twice in
    [emailRe]. *)
Definition email_label : regexp.Regexp :=
  regexp.Concat (regexp.CharClass email_alnum)
    (regexp.Quest
       (regexp.Concat
          (regexp.Repeat0 61 (regexp.CharClass email_alnum_hyphen))
          (regexp.CharClass email_alnum))).

(** [emailRe], between its [^] and [$]. *)
Definition emailRe : regexp.Regexp :=
  regexp.Concat (regexp.Plus (regexp.CharClass email_local))
    (regexp.Concat (regexp.Literal "@")
       (regexp.Concat email_label
          (regexp.Star (regexp.Concat (regexp.Literal ".") email_label)))).

Definition Email (val : string) : bool := regexp.MatchString emailRe val.

(** The byte test of the loop body of [Base64URL]. *)
Definition valid (c : ascii) : bool :=
  (byte_le "a" c && byte_le c "z") ||
  (byte_le "A" c && byte_le c "Z") ||
  (byte_le "0" c && byte_le c "9") ||
  Ascii.eqb c "_" || Ascii.eqb c "-".

(** [for i := 0; i < expectLen; i++ { ... }] of [Base64URL]; [n] counts the
    iterations that remain, [expectLen - i]. *)
Fixpoint Base64URL_loop (val : string) (n : nat) (i : Z) : option bool :=
  match n with
  | O => Some true
  | S n' =>
      match index val i with
      | None => None
      | Some c =>
          if negb (valid c) then Some false
          else Base64URL_loop val n' (i + 1)
      end
  end.

Definition Base64URL (val : string) (expectLen : Z) : option bool :=
  if negb (len val =? expectLen) then Some false
  else Base64URL_loop val (Z.to_nat expectLen) 0.

Definition ItemID (val : string) : option bool := Base64URL val 21.

(** State of the scanning loop of [IsHostname]. *)
Record hstate : Type := mk_hstate {
  last : ascii;
  nonNumeric : bool;
  partlen : Z
}.

(** How the loop of [IsHostname] ends: by a [return] inside the body, or by
    running to its end with the final state. *)
Inductive flow : Type :=
| Return (b : bool)
| Finished (st : hstate).

Definition is_alpha_ (c : ascii) : bool :=
  (byte_le "a" c && byte_le c "z") ||
  (byte_le "A" c && byte_le c "Z") ||
  Ascii.eqb c "_".

Definition is_digit (c : ascii) : bool := byte_le "0" c && byte_le c "9".

(** [for i := 0; i < len(s); i++ { c := s[i]; switch {...}; last = c }];
    [n] counts the iterations that remain.  The cases of the expression-less
    [switch] are tried in the order they are written; [default] is taken
    when none matches. *)
Fixpoint IsHostname_loop (s : string) (n : nat) (i : Z) (st : hstate)
  : option flow :=
  match n with
  | O => Some (Finished st)
  | S n' =>
      match index s i with
      | None => None
      | Some c =>
          if is_alpha_ c then
            IsHostname_loop s n' (i + 1)
              (mk_hstate c true (partlen st + 1))
          else if is_digit c then
            IsHostname_loop s n' (i + 1)
              (mk_hstate c (nonNumeric st) (partlen st + 1))
          else if Ascii.eqb c "-" then
            if Ascii.eqb (last st) "." then Some (Return false)
            else
              IsHostname_loop s n' (i + 1)
                (mk_hstate c true (partlen st + 1))
          else if Ascii.eqb c "." then
            if Ascii.eqb (last st) "." || Ascii.eqb (last st) "-"
            then Some (Return false)
            else if (partlen st >? 63) || (partlen st =? 0)
            then Some (Return false)
            else
              IsHostname_loop s n' (i + 1)
                (mk_hstate c (nonNumeric st) 0)
          else Some (Return false)
      end
  end.

(** The guard [l == 254 && s[l-1] != '.']; the index is evaluated only
    when [l == 254]. *)
Definition too_long_254 (s : string) (l : Z) : option bool :=
  if l =? 254 then
    match index s (l - 1) with
    | None => None
    | Some c => Some (negb (Ascii.eqb c "."))
    end
  else Some false.

Definition IsHostname (s : string) : option bool :=
  if String.eqb s "." then Some true
  else
    let l := len s in
    if (l =? 0) || (l >? 254) then Some false
    else
      match too_long_254 s l with
      | None => None
      | Some true => Some false
      | Some false =>
          match IsHostname_loop s (Z.to_nat (len s)) 0
                  (mk_hstate "." false 0) with
          | None => None
          | Some (Return b) => Some b
          | Some (Finished st) =>
              if Ascii.eqb (last st) "-" || (partlen st >? 63)
              then Some false
              else Some (nonNumeric st)
          end
      end.

End validators.

(** ** Package server: TLS resolution *)

Module server.
Import Go.

(** The fields of the configuration snapshot ([config.Get()]) read by the
    server; [LoadedConfigPath] is the value of [GetLoadedConfigPath()]. *)
Record Config : Type := mk_Config {
  Bind : string;
  Port : Z;
  MetricsBind : string;
  MetricsPort : Z;
  EnableMetrics : bool;
  TLSPath : string;
  TLSClientAuth : bool;
  TLSCAPEM : string;
  TLSCertPEM : string;
  TLSKeyPEM : string;
  LoadedConfigPath : string
}.

(** [tls.ClientAuthType], in the order of crypto/tls. *)
Inductive ClientAuthType : Type :=
| NoClientCert
| RequestClientCert
| RequireAnyClientCert
| VerifyClientCertIfGiven
| RequireAndVerifyClientCert.

(** A [context.Context], reduced to what [Run] observes of it: whether its
    [Done] channel is ever closed. *)
Record Context : Type := mk_Context { ctx_done : bool }.

(** [type tlsCertWatchFn func(ctx context.Context) error]. *)
Definition tlsCertWatchFn : Type := Context -> option error.

Section Server.

(** Values of the Go libraries that the server only passes around:
    parsed CA certificates, [tls.Certificate], the repository's
    [*tlsCertProvider], the callback stored in [GetCertificate] and
    [net.Listener]. *)
Context {X509Cert Certificate Provider GetCertFn Listener : Type}.

(** [x509.CertPool]. *)
Record CertPool : Type := mk_CertPool { pool_certs : list X509Cert }.

(** The fields of [tls.Config] that [loadTLSConfig] sets. *)
Record TLSConfig : Type := mk_TLSConfig {
  MinVersion : Z;
  ClientAuth : ClientAuthType;
  ClientCAs : option CertPool;
  Certificates : list Certificate;
  GetCertificate : option GetCertFn
}.

(** What [loadTLSConfig] uses and is defined elsewhere: the package
    constants [minTLSVersion] and [tlsCAFile], the certificate provider
    ([newTLSCertProvider], [GetCertificateFn], [Watch]) and the calls into
    path/filepath, os, crypto/x509 and crypto/tls.  [pem_certificates b] are
    the certificates that [AppendCertsFromPEM] finds in [b]. *)
Record Platform : Type := mk_Platform {
  minTLSVersion : Z;
  tlsCAFile : string;
  filepath_Dir : string -> string;
  filepath_Join : string -> string -> string;
  os_ReadFile : string -> result string;
  pem_certificates : string -> list X509Cert;
  tls_X509KeyPair : string -> string -> result Certificate;
  newTLSCertProvider : string -> result (option Provider);
  GetCertificateFn : Provider -> GetCertFn;
  Watch : Provider -> tlsCertWatchFn
}.

Variable P : Platform.

Definition NewCertPool : CertPool := mk_CertPool [].

(** [pool.AppendCertsFromPEM(b)]: adds the certificates found in [b] and
    reports whether there was at least one. *)
Definition AppendCertsFromPEM (pool : CertPool) (b : string)
  : CertPool * bool :=
  let cs := pem_certificates P b in
  (mk_CertPool (pool_certs pool ++ cs),
   match cs with [] => false | _ :: _ => true end).

(** Lines 435-442: [tlsPath], defaulting to the folder of the loaded
    configuration file. *)
Definition resolveTLSPath (cfg : Config) : string :=
  let tlsPath := TLSPath cfg in
  if String.eqb tlsPath "" then
    let file := LoadedConfigPath cfg in
    if negb (String.eqb file "") then filepath_Dir P file else tlsPath
  else tlsPath.

(** Lines 447-467: the CA bytes, from the PEM value or from the file
    [tlsCAFile] of [tlsPath]. *)
Definition loadCACert (cfg : Config) (tlsPath : string) : result string :=
  let caCert := TLSCAPEM cfg in
  if len caCert >? 0 then Ok caCert
  else if String.eqb tlsPath "" then
    Err (errors_New "cannot find a CA certificate, which is required when `tlsClientAuth` is enabled: no path specified in option `tlsPath`, and no config file was loaded")
  else
    match os_ReadFile P (filepath_Join P tlsPath (tlsCAFile P)) with
    | Err e =>
        Err (Errorf_w
               ("failed to load CA certificate file from path '" ++ tlsPath
                ++ "' and 'tlsClientAuth' option is enabled")
               e)
    | Ok b => Ok b
    end.

(** Lines 445-480: the block [if cfg.TLSClientAuth { ... }]. *)
Definition setClientAuth (cfg : Config) (tlsPath : string)
    (tlsConfig : TLSConfig) : result TLSConfig :=
  if TLSClientAuth cfg then
    match loadCACert cfg tlsPath with
    | Err e => Err e
    | Ok caCert =>
        let '(caCertPool, ok) := AppendCertsFromPEM NewCertPool caCert in
        if negb ok then
          Err (errors_New
                 ("failed to import CA certificate from PEM found at path '"
                  ++ tlsPath ++ "'"))
        else
          Ok (mk_TLSConfig (MinVersion tlsConfig)
                VerifyClientCertIfGiven
                (Some caCertPool)
                (Certificates tlsConfig)
                (GetCertificate tlsConfig))
    end
  else Ok tlsConfig.

(** Lines 482-528: the server certificate and key.  The result pairs the
    returned [*tls.Config] with the returned watch function; [None] is
    [nil]. *)
Definition setServerCert (cfg : Config) (tlsPath : string)
    (tlsConfig : TLSConfig)
  : result (option TLSConfig * option tlsCertWatchFn) :=
  let tlsCert := TLSCertPEM cfg in
  let tlsKey := TLSKeyPEM cfg in
  if String.eqb tlsCert "" && String.eqb tlsKey "" then
    if String.eqb tlsPath "" then Ok (None, None)
    else
      match newTLSCertProvider P tlsPath with
      | Err e =>
          Err (Errorf_w
                 ("failed to load TLS certificates from path '" ++ tlsPath
                  ++ "'")
                 e)
      | Ok None => Ok (None, None)
      | Ok (Some provider) =>
          Ok (Some (mk_TLSConfig (MinVersion tlsConfig)
                      (ClientAuth tlsConfig)
                      (ClientCAs tlsConfig)
                      (Certificates tlsConfig)
                      (Some (GetCertificateFn P provider))),
              Some (Watch P provider))
      end
  else if String.eqb tlsCert "" || String.eqb tlsKey "" then
    Ok (None, None)
  else
    match tls_X509KeyPair P tlsCert tlsKey with
    | Err e => Err (Errorf_w "failed to parse TLS certificate or key" e)
    | Ok cert =>
        Ok (Some (mk_TLSConfig (MinVersion tlsConfig)
                    (ClientAuth tlsConfig)
                    (ClientCAs tlsConfig)
                    [cert]
                    (GetCertificate tlsConfig)),
            None)
    end.

(** The initial [&tls.Config{MinVersion: minTLSVersion}]. *)
Definition newTLSConfig : TLSConfig :=
  mk_TLSConfig (minTLSVersion P) NoClientCert None [] None.

(** [loadTLSConfig]; every [return] with an error returns [nil, nil, err].
    The [log.Debug()] calls are left out. *)
Definition loadTLSConfig (cfg : Config)
  : result (option TLSConfig * option tlsCertWatchFn) :=
  let tlsConfig := newTLSConfig in
  let tlsPath := resolveTLSPath cfg in
  match setClientAuth cfg tlsPath tlsConfig with
  | Err e => Err e
  | Ok tlsConfig => setServerCert cfg tlsPath tlsConfig
  end.

(** *** The server and its supervision *)

Inductive srv_name : Type := AppServer | MetricsServer.

(** The handler given to an [http.Server]: the Gin router, the router behind
    [h2c.NewHandler] (HTTP/2 cleartext), or the metrics mux. *)
Inductive handler : Type := AppRouter | H2CHandler | MetricsMux.

(** The fields of [http.Server] that the start functions set; the timeout
    is in milliseconds. *)
Record HttpServer : Type := mk_HttpServer {
  Addr : string;
  Handler : handler;
  SrvTLSConfig : option TLSConfig;
  MaxHeaderBytes : Z;
  ReadHeaderTimeout : Z
}.

(** [type Server struct], without the router, the metrics registry and the
    authentication provider.  [wg] is the counter of the [sync.WaitGroup]. *)
Record Server : Type := mk_Server {
  appSrv : option HttpServer;
  metricsSrv : option HttpServer;
  srv_tlsCertWatchFn : option tlsCertWatchFn;
  tlsConfig : option TLSConfig;
  running : bool;
  wg : Z;
  appListener : option Listener;
  metricsListener : option Listener
}.

(** The results of the calls that [Run] makes outside the server: the
    address built by [net.JoinHostPort(bind, strconv.Itoa(port))], and, per
    server, what [net.Listen("tcp", addr)] and [Shutdown] return.  Each of
    the last two is called at most once per server in one call of [Run]. *)
Record Env : Type := mk_Env {
  JoinHostPort : string -> Z -> string;
  net_Listen : srv_name -> string -> result Listener;
  Shutdown : srv_name -> option error
}.

(** What a call of [Run] does, in the order it does it. *)
Inductive event : Type :=
| EvWgAdd (delta : Z)
| EvWgDone
| EvWgWait
| EvListen (which : srv_name) (addr : string)
| EvLogInfo (msg : string)
| EvGo (which : srv_name)
| EvWatch
| EvCtxDone
| EvShutdown (which : srv_name) (timeout_ms : Z)
| EvLogWarn (msg : string) (e : error)
| EvStoreRunning (b : bool).

(** The calls that [Run] defers. *)
Inductive deferred : Type :=
| DeferStoreRunning
| DeferWgWait
| DeferShutdownApp
| DeferShutdownMetrics.

(** The server, the events so far, and the deferred calls of the running
    [Run], the most recently deferred first. *)
Record machine : Type := mk_machine {
  m_srv : Server;
  m_trace : list event;
  m_defers : list deferred
}.

(** Where a goroutine can stay blocked for ever. *)
Inductive block_point : Type := AtCtxDone | AtWgWait.

Inductive halt : Type :=
| Blocked (at_ : block_point)
| Panicked.

Inductive step (A : Type) : Type :=
| Next (a : A)
| Halt (h : halt).
Arguments Next {A} a.
Arguments Halt {A} h.

Definition act (A : Type) : Type := machine -> machine * step A.

Definition ret {A : Type} (a : A) : act A := fun m => (m, Next a).

Definition bind {A B : Type} (x : act A) (k : A -> act B) : act B :=
  fun m =>
    match x m with
    | (m', Next a) => k a m'
    | (m', Halt h) => (m', Halt h)
    end.

Notation "x <- c1 ;; c2" := (bind c1 (fun x => c2))
  (at level 61, c1 at next level, right associativity).
Notation "c1 ;; c2" := (bind c1 (fun _ => c2))
  (at level 61, right associativity).

Definition emit (e : event) : act unit :=
  fun m => (mk_machine (m_srv m) (m_trace m ++ [e]) (m_defers m), Next tt).

Definition defer (d : deferred) : act unit :=
  fun m => (mk_machine (m_srv m) (m_trace m) (d :: m_defers m), Next tt).

Definition get_srv : act Server := fun m => (m, Next (m_srv m)).

Definition put_srv (s : Server) : act unit :=
  fun m => (mk_machine s (m_trace m) (m_defers m), Next tt).

Definition set_running (s : Server) (b : bool) : Server :=
  mk_Server (appSrv s) (metricsSrv s) (srv_tlsCertWatchFn s) (tlsConfig s)
    b (wg s) (appListener s) (metricsListener s).

Definition set_wg (s : Server) (c : Z) : Server :=
  mk_Server (appSrv s) (metricsSrv s) (srv_tlsCertWatchFn s) (tlsConfig s)
    (running s) c (appListener s) (metricsListener s).

Definition set_appSrv (s : Server) (h : HttpServer) : Server :=
  mk_Server (Some h) (metricsSrv s) (srv_tlsCertWatchFn s) (tlsConfig s)
    (running s) (wg s) (appListener s) (metricsListener s).

Definition set_metricsSrv (s : Server) (h : HttpServer) : Server :=
  mk_Server (appSrv s) (Some h) (srv_tlsCertWatchFn s) (tlsConfig s)
    (running s) (wg s) (appListener s) (metricsListener s).

Definition set_appListener (s : Server) (l : Listener) : Server :=
  mk_Server (appSrv s) (metricsSrv s) (srv_tlsCertWatchFn s) (tlsConfig s)
    (running s) (wg s) (Some l) (metricsListener s).

Definition set_metricsListener (s : Server) (l : Listener) : Server :=
  mk_Server (appSrv s) (metricsSrv s) (srv_tlsCertWatchFn s) (tlsConfig s)
    (running s) (wg s) (appListener s) (Some l).

(** [atomic.Bool.CompareAndSwap(old, new)] on a flag holding [v]: the new
    value of the flag and whether the swap took place. *)
Definition CompareAndSwap (v old new : bool) : bool * bool :=
  if Bool.eqb v old then (new, true) else (v, false).

(** [s.wg.Add(delta)]; a negative counter panics. *)
Definition wg_Add (delta : Z) : act unit :=
  s <- get_srv ;;
  if wg s + delta <? 0 then (fun m => (m, Halt Panicked))
  else put_srv (set_wg s (wg s + delta)) ;; emit (EvWgAdd delta).

(** [s.wg.Done()], which is [Add(-1)]. *)
Definition wg_Done : act unit :=
  s <- get_srv ;;
  if wg s - 1 <? 0 then (fun m => (m, Halt Panicked))
  else put_srv (set_wg s (wg s - 1)) ;; emit EvWgDone.

(** [s.wg.Wait()]: returns once the counter is zero.  [Done] is called
    nowhere but in the closures that [Run] itself defers, so a counter that
    is not zero when [Run] waits stays so. *)
Definition wg_Wait : act unit :=
  emit EvWgWait ;;
  s <- get_srv ;;
  if wg s =? 0 then ret tt else (fun m => (m, Halt (Blocked AtWgWait))).

(** [startAppServer]; the result is the returned [error]. *)
Definition startAppServer (env : Env) (cfg : Config) : act (option error) :=
  s <- get_srv ;;
  let addr := JoinHostPort env (Bind cfg) (Port cfg) in
  let srv :=
    match tlsConfig s with
    | Some tc => mk_HttpServer addr AppRouter (Some tc) (Z.shiftl 1 20) 10000
    | None => mk_HttpServer addr H2CHandler None (Z.shiftl 1 20) 10000
    end in
  put_srv (set_appSrv s srv) ;;
  r <- match appListener s with
       | Some _ => ret None
       | None =>
           emit (EvListen AppServer addr) ;;
           match net_Listen env AppServer addr with
           | Err e => ret (Some (Errorf_w "failed to create TCP listener" e))
           | Ok l =>
               s' <- get_srv ;;
               put_srv (set_appListener s' l) ;; ret None
           end
       end ;;
  match r with
  | Some e => ret (Some e)
  | None =>
      emit (EvLogInfo "App server started") ;;
      emit (EvGo AppServer) ;;
      ret None
  end.

(** [startMetricsServer]. *)
Definition startMetricsServer (env : Env) (cfg : Config)
  : act (option error) :=
  s <- get_srv ;;
  let addr := JoinHostPort env (MetricsBind cfg) (MetricsPort cfg) in
  put_srv (set_metricsSrv s
             (mk_HttpServer addr MetricsMux None (Z.shiftl 1 20) 10000)) ;;
  r <- match metricsListener s with
       | Some _ => ret None
       | None =>
           emit (EvListen MetricsServer addr) ;;
           match net_Listen env MetricsServer addr with
           | Err e => ret (Some (Errorf_w "failed to create TCP listener" e))
           | Ok l =>
               s' <- get_srv ;;
               put_srv (set_metricsListener s' l) ;; ret None
           end
       end ;;
  match r with
  | Some e => ret (Some e)
  | None =>
      emit (EvLogInfo "Metrics server started") ;;
      emit (EvGo MetricsServer) ;;
      ret None
  end.

(** The body of a deferred call.  The two shutdown closures defer
    [s.wg.Done()] themselves, so it runs last in them; calling [Shutdown] on
    a nil [*http.Server] panics. *)
Definition call_deferred (env : Env) (d : deferred) : act unit :=
  match d with
  | DeferStoreRunning =>
      s <- get_srv ;;
      put_srv (set_running s false) ;; emit (EvStoreRunning false)
  | DeferWgWait => wg_Wait
  | DeferShutdownApp =>
      s <- get_srv ;;
      match appSrv s with
      | None => (fun m => (m, Halt Panicked))
      | Some _ =>
          emit (EvShutdown AppServer 5000) ;;
          match Shutdown env AppServer with
          | Some e => emit (EvLogWarn "App server shutdown error" e)
          | None => ret tt
          end ;;
          wg_Done
      end
  | DeferShutdownMetrics =>
      s <- get_srv ;;
      match metricsSrv s with
      | None => (fun m => (m, Halt Panicked))
      | Some _ =>
          emit (EvShutdown MetricsServer 500) ;;
          match Shutdown env MetricsServer with
          | Some e => emit (EvLogWarn "Metrics server shutdown error" e)
          | None => ret tt
          end ;;
          wg_Done
      end
  end.

(** How a call of [Run] ends: it returns its [error] ([None] is [nil]), it
    stays blocked, or it panics. *)
Inductive outcome : Type :=
| Returns (err : option error)
| Blocks (at_ : block_point)
| Panics.

(** Running the deferred calls at the exit of [Run], the most recently
    deferred first.  A call that panics does not stop the ones after it;
    [r] is what [Run] returns if none blocks and none panics. *)
Fixpoint run_defers (env : Env) (ds : list deferred) (panicking : bool)
    (r : option error) (m : machine) : machine * outcome :=
  match ds with
  | [] => (m, if panicking then Panics else Returns r)
  | d :: ds' =>
      match call_deferred env d m with
      | (m', Next _) => run_defers env ds' panicking r m'
      | (m', Halt Panicked) => run_defers env ds' true r m'
      | (m', Halt (Blocked p)) => (m', Blocks p)
      end
  end.

(** The statements of [Run] after the compare-and-swap, up to its
    [return]. *)
Definition Run_body (env : Env) (cfg : Config) (ctx : Context)
  : act (option error) :=
  defer DeferStoreRunning ;;
  defer DeferWgWait ;;
  wg_Add 1 ;;
  err <- startAppServer env cfg ;;
  match err with
  | Some e => ret (Some (Errorf_w "failed to start app server" e))
  | None =>
      defer DeferShutdownApp ;;
      r <- (if EnableMetrics cfg then
              wg_Add 1 ;;
              err <- startMetricsServer env cfg ;;
              match err with
              | Some e =>
                  ret (Some (Errorf_w "failed to start metrics server" e))
              | None => defer DeferShutdownMetrics ;; ret None
              end
            else ret None) ;;
      match r with
      | Some e => ret (Some e)
      | None =>
          s <- get_srv ;;
          r <- match srv_tlsCertWatchFn s with
               | Some watch =>
                   emit EvWatch ;;
                   match watch ctx with
                   | Some e =>
                       ret (Some (Errorf_w
                                    "failed to watch for TLS certificates" e))
                   | None => ret None
                   end
               | None => ret None
               end ;;
          match r with
          | Some e => ret (Some e)
          | None =>
              if ctx_done ctx then emit EvCtxDone ;; ret None
              else (fun m => (m, Halt (Blocked AtCtxDone)))
          end
      end
  end.

(** [Run]: the server it leaves, what it did, and how it ended.  The bodies
    of the two serving goroutines run concurrently with [Run] and appear
    here only as the events [EvGo] that start them. *)
Definition Run (env : Env) (cfg : Config) (ctx : Context) (s : Server)
  : Server * list event * outcome :=
  match CompareAndSwap (running s) false true with
  | (_, false) =>
      (s, [], Returns (Some (errors_New "server is already running")))
  | (v, true) =>
      match Run_body env cfg ctx (mk_machine (set_running s v) [] []) with
      | (m, Next r) =>
          let '(m', o) := run_defers env (m_defers m) false r m in
          (m_srv m', m_trace m', o)
      | (m, Halt Panicked) =>
          let '(m', o) := run_defers env (m_defers m) true None m in
          (m_srv m', m_trace m', o)
      | (m, Halt (Blocked p)) => (m_srv m, m_trace m, Blocks p)
      end
  end.

(** [NewServer], [init] and [initAppServer], without the routes. *)
Definition NewServer (cfg : Config) : result Server :=
  match loadTLSConfig cfg with
  | Err e => Err (Errorf_w "failed to load TLS configuration" e)
  | Ok (tc, w) => Ok (mk_Server None None w tc false 0 None None)
  end.

End Server.

Arguments Next {A} a.
Arguments Halt {A} h.

End server.

(** ** The vocabulary of the statements *)

Module spec.

(** The bytes of a string, in order. *)
Definition bytes (s : string) : list ascii := list_ascii_of_string s.

(** An ASCII lowercase letter, uppercase letter, digit, '-' or '_', by
    byte value. *)
Definition base64url_byte (c : ascii) : Prop :=
  let n := nat_of_ascii c in
  (97 <= n <= 122)%nat \/ (65 <= n <= 90)%nat \/ (48 <= n <= 57)%nat \/
  n = 45%nat \/ n = 95%nat.

(** An ASCII letter, by byte value. *)
Definition ascii_letter (c : ascii) : Prop :=
  let n := nat_of_ascii c in
  (65 <= n <= 90)%nat \/ (97 <= n <= 122)%nat.

(** A string with no ASCII letter, no underscore and no hyphen. *)
Definition no_letter_underscore_hyphen (s : string) : Prop :=
  forall c, In c (bytes s) ->
    ~ ascii_letter c /\ c <> "_"%char /\ c <> "-"%char.

End spec.

Module server_spec.
Import Go server.

(** Exactly one of the inline certificate PEM and the inline key PEM is
    given. *)
Definition exactly_one_inline (cfg : Config) : Prop :=
  (TLSCertPEM cfg <> "" /\ TLSKeyPEM cfg = "") \/
  (TLSCertPEM cfg = "" /\ TLSKeyPEM cfg <> "").

(** [a] occurs in [l] and [b] occurs after it. *)
Definition precedes {A : Type} (a b : A) (l : list A) : Prop :=
  exists l1 l2 l3, l = (l1 ++ a :: l2 ++ b :: l3)%list.

(** [l] ends with [suf]. *)
Definition ends_with {A : Type} (suf l : list A) : Prop :=
  exists pre, l = (pre ++ suf)%list.

Section WithPlatform.
Context {X509Cert Certificate Provider GetCertFn : Type}.
Variable P : @Platform X509Cert Certificate Provider GetCertFn.

(** The CA bytes cannot be obtained or parsed: no inline CA and no TLS
    directory; no inline CA and the CA file of the directory cannot be read;
    or the bytes obtained, inline or from the file, hold no certificate. *)
Definition ca_unavailable (cfg : Config) : Prop :=
  let dir := resolveTLSPath P cfg in
  let file := filepath_Join P dir (tlsCAFile P) in
  (TLSCAPEM cfg = "" /\ dir = "") \/
  (TLSCAPEM cfg = "" /\ dir <> "" /\ exists e, os_ReadFile P file = Err e) \/
  (TLSCAPEM cfg <> "" /\
   snd (AppendCertsFromPEM P NewCertPool (TLSCAPEM cfg)) = false) \/
  (TLSCAPEM cfg = "" /\ dir <> "" /\
   exists b, os_ReadFile P file = Ok b /\
             snd (AppendCertsFromPEM P NewCertPool b) = false).

(** The mutual-TLS step of [loadTLSConfig] goes through: client
    authentication is off, or the CA is obtained and parsed. *)
Definition client_auth_ready (cfg : Config) : Prop :=
  exists tc,
    setClientAuth P cfg (resolveTLSPath P cfg) (newTLSConfig P) = Ok tc.

End WithPlatform.

Section WithEnv.
Context {Listener : Type}.
Variable env : @Env Listener.

(** A server can start: its listener was supplied, or [net.Listen]
    succeeds on its address. *)
Definition can_listen (which : srv_name) (given : option Listener)
    (bind_ : string) (port : Z) : Prop :=
  given <> None \/
  exists l, net_Listen env which (JoinHostPort env bind_ port) = Ok l.

End WithEnv.

End server_spec.

(** ** A small world to run the server in *)

Module demo.
Import Go server.

(** CA certificates, certificates, providers, certificate callbacks and
    listeners are all named by strings here. *)
Definition platform : @Platform string (string * string) string string :=
  mk_Platform
    771
    "ca.pem"
    (fun _ => "/etc/tfa")
    (fun d f => d ++ "/" ++ f)
    (fun p => if String.eqb p "/etc/tfa/ca.pem" then Ok "CA"
              else Err (errors_New "open: no such file or directory"))
    (fun b => if String.eqb b "CA" then ["ca"] else [])
    (fun c k => if String.eqb c "CERT" && String.eqb k "KEY" then Ok (c, k)
                else Err (errors_New "tls: failed to find any PEM data"))
    (fun d => if String.eqb d "/etc/tfa" then Ok (Some d) else Ok None)
    (fun p => p)
    (fun _ _ => None).

Definition config (tlsPath : string) (clientAuth : bool)
    (ca cert key file : string) : Config :=
  mk_Config "0.0.0.0" 4181 "0.0.0.0" 2112 true
    tlsPath clientAuth ca cert key file.

(** Only the certificate is given inline; no client authentication. *)
Definition cfg_cert_only : Config := config "" false "" "CERT" "" "".

(** Nothing is given, and client authentication is requested. *)
Definition cfg_mtls_nothing : Config := config "" true "" "" "" "".

(** Nothing is given, and no client authentication. *)
Definition cfg_nothing : Config := config "" false "" "" "" "".

(** A valid inline pair, and client authentication with no CA. *)
Definition cfg_pair_mtls_no_ca : Config := config "" true "" "CERT" "KEY" "".

(** A valid inline pair with an inline CA and client authentication. *)
Definition cfg_pair_mtls : Config := config "" true "CA" "CERT" "KEY" "".

(** A valid inline pair, no client authentication. *)
Definition cfg_pair : Config := config "" false "" "CERT" "KEY" "".

(** A world in which every listener binds; the metrics server reports a
    time-out when shut down. *)
Definition env_ok : @Env string :=
  mk_Env (fun b p => b ++ ":" ++ (if p =? 4181 then "4181" else "2112"))
    (fun _ a => Ok a)
    (fun w => match w with
              | AppServer => None
              | MetricsServer => Some (errors_New "context deadline exceeded")
              end).

(** A world in which the application port is taken. *)
Definition env_port_taken : @Env string :=
  mk_Env (fun b p => b ++ ":" ++ (if p =? 4181 then "4181" else "2112"))
    (fun w a => match w with
                | AppServer => Err (errors_New "bind: address already in use")
                | MetricsServer => Ok a
                end)
    (fun _ => None).

(** A new server without TLS and without a watch function. *)
Definition fresh : @Server string (string * string) string string :=
  mk_Server None None None None false 0 None None.

(** A new server whose watch function fails. *)
Definition fresh_bad_watch : @Server string (string * string) string string :=
  mk_Server None None (Some (fun _ => Some (errors_New "inotify: too many open files")))
    None false 0 None None.

End demo.

(** ** The vocabulary of the further statements *)

Module regexp_spec.
Import regexp.

(** The language of a pattern: [matches r w] when the bytes [w], as a
    whole, match [r]. *)
Inductive matches : Regexp -> list ascii -> Prop :=
| M_Empty : matches EmptyMatch []
| M_Class (rs : list (ascii * ascii)) (c : ascii) :
    in_class rs c = true -> matches (CharClass rs) [c]
| M_Concat (a b : Regexp) (u v : list ascii) :
    matches a u -> matches b v -> matches (Concat a b) (u ++ v)
| M_AltL (a b : Regexp) (u : list ascii) :
    matches a u -> matches (Alternate a b) u
| M_AltR (a b : Regexp) (u : list ascii) :
    matches b u -> matches (Alternate a b) u
| M_Star0 (a : Regexp) : matches (Star a) []
| M_StarS (a : Regexp) (u v : list ascii) :
    matches a u -> matches (Star a) v -> matches (Star a) (u ++ v).

(** The bytes that can occur in a text matching the pattern. *)
Fixpoint may_use (r : Regexp) (c : ascii) : bool :=
  match r with
  | NoMatch => false
  | EmptyMatch => false
  | CharClass rs => in_class rs c
  | Concat a b => may_use a c || may_use b c
  | Alternate a b => may_use a c || may_use b c
  | Star a => may_use a c
  end.

End regexp_spec.

Module validators_spec.
Import Go validators.

(** An ASCII letter or digit. *)
Definition alnum (c : ascii) : Prop :=
  let n := nat_of_ascii c in
  (97 <= n <= 122)%nat \/ (65 <= n <= 90)%nat \/ (48 <= n <= 57)%nat.

(** A label of the domain of an e-mail address: 1 to 63 bytes, letters,
    digits and hyphens only, with no hyphen at either end. *)
Definition email_label_ok (lab : list ascii) : Prop :=
  (1 <= List.length lab <= 63)%nat /\
  Forall (fun c => alnum c \/ c = "-"%char) lab /\
  (exists a rest, lab = a :: rest /\ alnum a) /\
  (exists front z, lab = (front ++ [z])%list /\ alnum z).

(** A byte of the local part of an e-mail address. *)
Definition email_local_byte (c : ascii) : Prop :=
  alnum c \/ In c (list_ascii_of_string ".!#$%&'*+/=?^_`{|}~-").

(** The labels, with a dot between each two. *)
Fixpoint join_dots (labels : list (list ascii)) : list ascii :=
  match labels with
  | [] => []
  | [lab] => lab
  | lab :: rest => (lab ++ "."%char :: join_dots rest)%list
  end.

(** One round of the loop of [IsHostname] on the byte [c]: the next state,
    or [None] when the body returns false. *)
Definition hostname_step (st : hstate) (c : ascii) : option hstate :=
  if is_alpha_ c then Some (mk_hstate c true (partlen st + 1))
  else if is_digit c then Some (mk_hstate c (nonNumeric st) (partlen st + 1))
  else if Ascii.eqb c "-" then
    if Ascii.eqb (last st) "." then None
    else Some (mk_hstate c true (partlen st + 1))
  else if Ascii.eqb c "." then
    if Ascii.eqb (last st) "." || Ascii.eqb (last st) "-" then None
    else if (partlen st >? 63) || (partlen st =? 0) then None
    else Some (mk_hstate c (nonNumeric st) 0)
  else None.

(** The rounds of the loop over the bytes [bs], one after the other. *)
Fixpoint hostname_scan (bs : list ascii) (st : hstate) : option hstate :=
  match bs with
  | [] => Some st
  | c :: bs' =>
      match hostname_step st c with
      | None => None
      | Some st' => hostname_scan bs' st'
      end
  end.

(** The state in which [IsHostname] enters its loop. *)
Definition hostname_start : hstate := mk_hstate "." false 0.

(** A byte that makes [IsHostname] set [nonNumeric]. *)
Definition non_numeric (c : ascii) : bool :=
  is_alpha_ c || Ascii.eqb c "-".

(** A byte that a hostname can hold: a letter, a digit, '_', '-' or '.'. *)
Definition hostname_byte (c : ascii) : Prop :=
  alnum c \/ c = "_"%char \/ c = "-"%char \/ c = "."%char.

End validators_spec.

Module server_spec_more.
Import Go server.

Section WithTypes.
Context {X509Cert Certificate Provider GetCertFn Listener : Type}.

(** The platform [P] with another file system. *)
Definition with_ReadFile
    (P : @Platform X509Cert Certificate Provider GetCertFn)
    (readFile : string -> result string)
  : @Platform X509Cert Certificate Provider GetCertFn :=
  mk_Platform (minTLSVersion P) (tlsCAFile P) (filepath_Dir P)
    (filepath_Join P) readFile (pem_certificates P) (tls_X509KeyPair P)
    (newTLSCertProvider P) (GetCertificateFn P) (Watch P).

(** The platform [P] with another certificate directory scan. *)
Definition with_Provider
    (P : @Platform X509Cert Certificate Provider GetCertFn)
    (newProvider : string -> result (option Provider))
  : @Platform X509Cert Certificate Provider GetCertFn :=
  mk_Platform (minTLSVersion P) (tlsCAFile P) (filepath_Dir P)
    (filepath_Join P) (os_ReadFile P) (pem_certificates P)
    (tls_X509KeyPair P) newProvider (GetCertificateFn P) (Watch P).

(** The configuration [cfg], loaded from another file. *)
Definition with_LoadedConfigPath (cfg : Config) (file : string) : Config :=
  mk_Config (Bind cfg) (Port cfg) (MetricsBind cfg) (MetricsPort cfg)
    (EnableMetrics cfg) (TLSPath cfg) (TLSClientAuth cfg) (TLSCAPEM cfg)
    (TLSCertPEM cfg) (TLSKeyPEM cfg) file.

(** A server on which no [Run] is active. *)
Definition idle (s : @Server X509Cert Certificate GetCertFn Listener)
  : Prop :=
  running s = false /\ wg s = 0.

End WithTypes.

(** The events that are a [Shutdown] of the given server. *)
Definition is_shutdown (which : srv_name) (e : event) : bool :=
  match e, which with
  | EvShutdown AppServer _, AppServer => true
  | EvShutdown MetricsServer _, MetricsServer => true
  | _, _ => false
  end.

(** The events that concern the given server. *)
Definition concerns (which : srv_name) (e : event) : bool :=
  match e, which with
  | EvListen AppServer _, AppServer => true
  | EvListen MetricsServer _, MetricsServer => true
  | EvGo AppServer, AppServer => true
  | EvGo MetricsServer, MetricsServer => true
  | EvShutdown AppServer _, AppServer => true
  | EvShutdown MetricsServer _, MetricsServer => true
  | _, _ => false
  end.

(** The time, in milliseconds, that [Run] gives each server to shut
    down. *)
Definition shutdown_timeout (which : srv_name) : Z :=
  match which with
  | AppServer => 5000
  | MetricsServer => 500
  end.

End server_spec_more.

(** ** More of the small world *)

Module demo_more.
Import Go server.

(** No inline value, the directory [/etc/tfa], client authentication. *)
Definition cfg_directory_mtls : Config :=
  demo.config "/etc/tfa" true "" "" "" "".

(** An inline certificate with a key that does not go with it. *)
Definition cfg_pair_invalid : Config :=
  demo.config "" false "" "CERT" "BAD" "".

(** A file system with nothing in it. *)
Definition no_files (path : string) : result string :=
  Err (errors_New "open: no such file or directory").

(** A directory scan that always fails. *)
Definition no_scan (dir : string) : result (option string) :=
  Err (errors_New "open: permission denied").

(** A context that is never cancelled. *)
Definition forever : Context := mk_Context false.

(** A context that is cancelled. *)
Definition cancelled : Context := mk_Context true.

(** A new server that was given its application listener. *)
Definition fresh_with_listener
  : @Server string (string * string) string string :=
  mk_Server None None None None false 0 (Some "pipe") None.

(** The configuration of [demo.cfg_nothing] with metrics disabled. *)
Definition cfg_no_metrics : Config :=
  mk_Config "0.0.0.0" 4181 "0.0.0.0" 2112 false "" false "" "" "" "".

End demo_more.

(** ** The serving goroutines *)

Module server_goroutines.
Import Go server server_spec server_spec_more.

(** What [Serve] or [ServeTLS] returns in a serving goroutine:
    [http.ErrServerClosed], which it returns once [Shutdown] has been called
    on the server, or another error. *)
Inductive serve_result : Type :=
| ErrServerClosed
| ServeError (e : error).

(** The steps of the goroutine that [startAppServer] and
    [startMetricsServer] start, which is what their event [EvGo] stands
    for: the call of [ServeTLS] ([tls] true) or [Serve]; its return; then
    [log.Fatal], which ends the process at once, or the end of the function
    with its deferred [Close] of the listener.  A goroutine never touches
    the wait group. *)
Inductive go_event : Type :=
| GoServe (which : srv_name) (tls : bool)
| GoServeReturned (which : srv_name) (r : serve_result)
| GoLogFatal (which : srv_name) (e : error)
| GoListenerClose (which : srv_name)
| GoEnd (which : srv_name).

Definition goroutine (which : srv_name) (tls : bool) (r : serve_result)
  : list go_event :=
  GoServe which tls :: GoServeReturned which r ::
  match r with
  | ErrServerClosed => [GoListenerClose which; GoEnd which]
  | ServeError e => [GoLogFatal which e]
  end.

Section WithTypes.
Context {X509Cert Certificate GetCertFn Listener : Type}.

(** [s.tlsConfig != nil], the test that picks [ServeTLS] in the goroutine of
    the application server; the metrics server always uses [Serve]. *)
Definition serves_tls (s : @Server X509Cert Certificate GetCertFn Listener)
    (which : srv_name) : bool :=
  match which, tlsConfig s with
  | AppServer, Some _ => true
  | _, _ => false
  end.

End WithTypes.

(** What happens in the process while [Run] runs: a step of [Run], the
    return of [Run], or a step of a serving goroutine. *)
Inductive sys_event : Type :=
| OfRun (e : event)
| RunReturns (err : option error)
| OfGo (g : go_event).

(** [l] is [l1] and [l2] shuffled, each in its own order. *)
Inductive interleave {A : Type} : list A -> list A -> list A -> Prop :=
| interleave_nil : interleave [] [] []
| interleave_left (a : A) (l1 l2 l : list A) :
    interleave l1 l2 l -> interleave (a :: l1) l2 (a :: l)
| interleave_right (a : A) (l1 l2 l : list A) :
    interleave l1 l2 l -> interleave l1 (a :: l2) (a :: l).

(** An execution of a call of [Run] that does [tr] and returns [ret],
    together with the two serving goroutines: the three run side by side,
    each in its own order, and are tied by what the code ties them by, and no
    more: a goroutine starts after the [go] statement that creates it, and
    [Serve] returns [http.ErrServerClosed] only after [Shutdown] has been
    called on its server. *)
Definition execution (tr : list event) (ret : option error)
    (app metrics : list go_event) (full : list sys_event) : Prop :=
  (exists gs,
     interleave app metrics gs /\
     interleave (map OfRun tr ++ [RunReturns ret]) (map OfGo gs) full) /\
  (forall w tls,
     In (OfGo (GoServe w tls)) full ->
     precedes (OfRun (EvGo w)) (OfGo (GoServe w tls)) full) /\
  (forall w,
     In (OfGo (GoServeReturned w ErrServerClosed)) full ->
     precedes (OfRun (EvShutdown w (shutdown_timeout w)))
       (OfGo (GoServeReturned w ErrServerClosed)) full).

(** The events that add to the wait group, and those that take from it. *)
Definition is_wg_add (e : event) : bool :=
  match e with
  | EvWgAdd _ => true
  | _ => false
  end.

Definition is_wg_done (e : event) : bool :=
  match e with
  | EvWgDone => true
  | _ => false
  end.

End server_goroutines.

Module demo_goroutines.
Import Go server server_goroutines.


(** The goroutines of [demo.fresh] cancelled in [demo.env_ok], in the order
    in which they take their steps below. *)
Definition goroutine_steps : list go_event :=
  [GoServe AppServer false; GoServe MetricsServer false;
   GoServeReturned MetricsServer ErrServerClosed;
   GoServeReturned AppServer ErrServerClosed;
   GoListenerClose MetricsServer; GoEnd MetricsServer;
   GoListenerClose AppServer; GoEnd AppServer].

(** A schedule of [Run] on [demo.fresh] in [demo.env_ok] with a cancelled
    context: each goroutine starts serving when it is created, [Serve]
    returns in it as soon as [Shutdown] is called, and the goroutines get
    to close their listeners and end after [Run] has returned. *)
Definition late_close_schedule : list sys_event :=
  [OfRun (EvWgAdd 1);
   OfRun (EvListen AppServer "0.0.0.0:4181");
   OfRun (EvLogInfo "App server started");
   OfRun (EvGo AppServer);
   OfGo (GoServe AppServer false);
   OfRun (EvWgAdd 1);
   OfRun (EvListen MetricsServer "0.0.0.0:2112");
   OfRun (EvLogInfo "Metrics server started");
   OfRun (EvGo MetricsServer);
   OfGo (GoServe MetricsServer false);
   OfRun EvCtxDone;
   OfRun (EvShutdown MetricsServer 500);
   OfGo (GoServeReturned MetricsServer ErrServerClosed);
   OfRun (EvLogWarn "Metrics server shutdown error"
            (errors_New "context deadline exceeded"));
   OfRun EvWgDone;
   OfRun (EvShutdown AppServer 5000);
   OfGo (GoServeReturned AppServer ErrServerClosed);
   OfRun EvWgDone;
   OfRun EvWgWait;
   OfRun (EvStoreRunning false);
   RunReturns None;
   OfGo (GoListenerClose MetricsServer);
   OfGo (GoEnd MetricsServer);
   OfGo (GoListenerClose AppServer);
   OfGo (GoEnd AppServer)].

End demo_goroutines.

(** * Properties *)

(** ** Bytes and indexing *)

Module Go_facts.
Import Go.

Lemma len_nonneg (s : string) : 0 <= len s.
Proof. unfold len; lia. Qed.

Lemma len_app (a b : string) : len (a ++ b) = len a + len b.
Proof.
  unfold len. induction a as [|c a IH]; simpl String.length.
  - lia.
  - lia.
Qed.

Lemma len_empty_iff (s : string) : len s = 0 <-> s = "".
Proof.
  unfold len; destruct s; simpl; split; intro H;
    try reflexivity; try discriminate; lia.
Qed.

Lemma eqb_empty_false (s : string) : s <> "" -> String.eqb s "" = false.
Proof. intro H. apply String.eqb_neq. exact H. Qed.

Lemma get_after_prefix (pre : string) (c : ascii) (suf : string) :
  String.get (String.length pre) (pre ++ String c suf) = Some c.
Proof. induction pre as [|a pre IH]; simpl; [reflexivity | exact IH]. Qed.

Lemma index_after_prefix (pre : string) (c : ascii) (suf : string) :
  index (pre ++ String c suf) (len pre) = Some c.
Proof.
  unfold index, len.
  destruct (Z.ltb_spec (Z.of_nat (String.length pre)) 0) as [H|_]; [lia|].
  rewrite Nat2Z.id. apply get_after_prefix.
Qed.

Lemma snoc_app (pre : string) (c : ascii) (suf : string) :
  pre ++ String c suf = (pre ++ String c "") ++ suf.
Proof. induction pre as [|a pre IH]; simpl; [reflexivity | now rewrite IH]. Qed.

Lemma len_snoc (pre : string) (c : ascii) : len (pre ++ String c "") = len pre + 1.
Proof. rewrite len_app. unfold len; simpl; lia. Qed.

Lemma get_in_range (s : string) :
  forall n, (n < String.length s)%nat -> exists c, String.get n s = Some c.
Proof.
  induction s as [|a s IH]; intros n H; simpl in H.
  - lia.
  - destruct n as [|n]; simpl.
    + now exists a.
    + apply IH. lia.
Qed.

Lemma index_in_range (s : string) (i : Z) :
  0 <= i < len s -> exists c, index s i = Some c.
Proof.
  intros [H0 H1]. unfold index.
  destruct (Z.ltb_spec i 0) as [H|_]; [lia|].
  apply get_in_range. unfold len in H1. lia.
Qed.

Lemma byte_le_spec (a b : ascii) :
  byte_le a b = true <-> (nat_of_ascii a <= nat_of_ascii b)%nat.
Proof.
  unfold byte_le, Ascii.leb, Ascii.compare, nat_of_ascii.
  destruct (N.compare_spec (N_of_ascii a) (N_of_ascii b)) as [H|H|H];
    split; intro G; try reflexivity; try discriminate; lia.
Qed.

Lemma byte_eq_spec (a b : ascii) :
  Ascii.eqb a b = true <-> nat_of_ascii a = nat_of_ascii b.
Proof.
  rewrite Ascii.eqb_eq. split; intro H; [now subst|].
  rewrite <- (ascii_nat_embedding a), <- (ascii_nat_embedding b).
  now rewrite H.
Qed.

End Go_facts.

(** ** Package validators *)

Module validators_facts.
Import Go Go_facts validators spec.

Example ItemID_nanoid : ItemID "V1StGXR8_Z5jdHi6B-myT" = Some true.
Proof. reflexivity. Qed.

Example ItemID_short : ItemID "abc" = Some false.
Proof. reflexivity. Qed.

Example ItemID_bad_byte : ItemID "V1StGXR8_Z5jdHi6B+myT" = Some false.
Proof. reflexivity. Qed.

Example IsHostname_name : IsHostname "example.com" = Some true.
Proof. reflexivity. Qed.

Example IsHostname_ip : IsHostname "127.0.0.1" = Some false.
Proof. reflexivity. Qed.

Example IsHostname_root : IsHostname "." = Some true.
Proof. reflexivity. Qed.

Example IsHostname_leading_dash : IsHostname "-a.com" = Some false.
Proof. reflexivity. Qed.

Example IsHostname_double_dot : IsHostname "a..b" = Some false.
Proof. reflexivity. Qed.

Lemma valid_spec (c : ascii) : valid c = true <-> base64url_byte c.
Proof.
  unfold valid, base64url_byte.
  rewrite !orb_true_iff, !andb_true_iff, !byte_le_spec, !byte_eq_spec.
  change (nat_of_ascii "a") with 97%nat. change (nat_of_ascii "z") with 122%nat.
  change (nat_of_ascii "A") with 65%nat. change (nat_of_ascii "Z") with 90%nat.
  change (nat_of_ascii "0") with 48%nat. change (nat_of_ascii "9") with 57%nat.
  change (nat_of_ascii "_") with 95%nat. change (nat_of_ascii "-") with 45%nat.
  cbv zeta. tauto.
Qed.

Lemma is_alpha__spec (c : ascii) :
  is_alpha_ c = true <-> ascii_letter c \/ c = "_"%char.
Proof.
  unfold is_alpha_, ascii_letter.
  rewrite !orb_true_iff, !andb_true_iff, !byte_le_spec, Ascii.eqb_eq.
  change (nat_of_ascii "a") with 97%nat. change (nat_of_ascii "z") with 122%nat.
  change (nat_of_ascii "A") with 65%nat. change (nat_of_ascii "Z") with 90%nat.
  cbv zeta. tauto.
Qed.

(** The loop of [Base64URL], started at the end of any prefix of the
    string, tests exactly the bytes that follow. *)
Lemma Base64URL_loop_suffix (s : string) :
  forall suf pre, s = pre ++ suf ->
    Base64URL_loop s (String.length suf) (len pre)
    = Some (forallb valid (bytes suf)).
Proof.
  induction suf as [|c suf IH]; intros pre E.
  - reflexivity.
  - assert (Hi : index s (len pre) = Some c).
    { rewrite E. apply index_after_prefix. }
    simpl Base64URL_loop. rewrite Hi.
    unfold bytes; simpl. destruct (valid c); simpl.
    + rewrite <- (len_snoc pre c). apply IH. rewrite E. apply snoc_app.
    + reflexivity.
Qed.

Lemma Base64URL_eq (val : string) (expectLen : Z) :
  Base64URL val expectLen
  = Some ((len val =? expectLen) && forallb valid (bytes val)).
Proof.
  unfold Base64URL. destruct (Z.eqb_spec (len val) expectLen) as [E|E]; simpl.
  - rewrite <- E. unfold len at 1. rewrite Nat2Z.id.
    apply (Base64URL_loop_suffix val val ""). reflexivity.
  - reflexivity.
Qed.

(** C9.  [ItemID] is [Base64URL] at length 21; it always returns (no index
    is out of range); it returns true exactly on the strings of 21 bytes
    that are all ASCII letters, digits, '-' or '_'; and so it returns false
    on every string of any other length. *)
Theorem ItemID_spec (s : string) :
  ItemID s = Base64URL s 21 /\
  (exists b, ItemID s = Some b) /\
  (ItemID s = Some true <->
     String.length s = 21%nat /\ Forall base64url_byte (bytes s)) /\
  (ItemID s = Some false \/ String.length s = 21%nat).
Proof.
  assert (Hiff : ItemID s = Some true <->
     String.length s = 21%nat /\ Forall base64url_byte (bytes s)).
  { unfold ItemID. rewrite Base64URL_eq. split.
    - intro H. injection H as H. apply andb_true_iff in H as [Hl Hb].
      apply Z.eqb_eq in Hl. unfold len in Hl. split; [lia|].
      apply Forall_forall. intros c Hc. apply valid_spec.
      rewrite forallb_forall in Hb. now apply Hb.
    - intros [Hl Hb]. f_equal. apply andb_true_iff. split.
      + apply Z.eqb_eq. unfold len. lia.
      + apply forallb_forall. intros c Hc. apply valid_spec.
        rewrite Forall_forall in Hb. now apply Hb. }
  split; [reflexivity|]. split; [|split; [exact Hiff|]].
  - unfold ItemID. rewrite Base64URL_eq. eexists; reflexivity.
  - unfold ItemID. rewrite Base64URL_eq.
    destruct (Z.eqb_spec (len s) 21) as [E|E]; simpl.
    + right. unfold len in E. lia.
    + left. reflexivity.
Qed.

(** With [nonNumeric] false and only bytes that are neither letters, nor
    underscores, nor hyphens ahead, the loop of [IsHostname] returns false or
    runs to its end with [nonNumeric] still false. *)
Lemma IsHostname_loop_numeric (s : string) :
  forall suf pre st,
    s = pre ++ suf ->
    nonNumeric st = false ->
    (forall c, In c (bytes suf) ->
       is_alpha_ c = false /\ Ascii.eqb c "-" = false) ->
    IsHostname_loop s (String.length suf) (len pre) st = Some (Return false)
    \/ exists st',
         IsHostname_loop s (String.length suf) (len pre) st
         = Some (Finished st') /\ nonNumeric st' = false.
Proof.
  induction suf as [|c suf IH]; intros pre st E Hn Hs.
  - right. exists st. split; [reflexivity | exact Hn].
  - assert (Hi : index s (len pre) = Some c).
    { rewrite E. apply index_after_prefix. }
    simpl IsHostname_loop. rewrite Hi.
    destruct (Hs c) as [Ha Hd]; [left; reflexivity|].
    assert (Hs' : forall c', In c' (bytes suf) ->
               is_alpha_ c' = false /\ Ascii.eqb c' "-" = false).
    { intros c' Hc'. apply Hs. right. exact Hc'. }
    assert (E' : s = (pre ++ String c "") ++ suf).
    { rewrite E. apply snoc_app. }
    rewrite Ha, Hd, <- (len_snoc pre c).
    destruct (is_digit c).
    + apply IH; [exact E' | exact Hn | exact Hs'].
    + destruct (Ascii.eqb c "."); [|left; reflexivity].
      destruct (Ascii.eqb (last st) "." || Ascii.eqb (last st) "-");
        [left; reflexivity|].
      destruct ((partlen st >? 63) || (partlen st =? 0));
        [left; reflexivity|].
      apply IH; [exact E' | exact Hn | exact Hs'].
Qed.

(** C10.  On a string with no ASCII letter, no underscore and no hyphen,
    [IsHostname] returns false, unless the string is ".", on which it
    returns true. *)
Theorem IsHostname_numeric (s : string) :
  no_letter_underscore_hyphen s ->
  (s = "." -> IsHostname s = Some true) /\
  (s <> "." -> IsHostname s = Some false).
Proof.
  intro H. split.
  - intros ->. reflexivity.
  - intro Hd. unfold IsHostname.
    apply String.eqb_neq in Hd. rewrite Hd.
    destruct ((len s =? 0) || (len s >? 254)) eqn:Hl; [reflexivity|].
    apply orb_false_iff in Hl as [Hl0 Hl1].
    apply Z.eqb_neq in Hl0. rewrite Z.gtb_ltb in Hl1.
    apply Z.ltb_ge in Hl1.
    pose proof (len_nonneg s) as Hl2.
    assert (Ht : exists b, too_long_254 s (len s) = Some b).
    { unfold too_long_254. destruct (len s =? 254); [|now eexists].
      destruct (index_in_range s (len s - 1)) as [c Hc]; [lia|].
      rewrite Hc. now eexists. }
    destruct Ht as [[|] Ht]; rewrite Ht; [reflexivity|].
    assert (Hs : forall c, In c (bytes s) ->
               is_alpha_ c = false /\ Ascii.eqb c "-" = false).
    { intros c Hc. destruct (H c Hc) as (Hnl & Hu & Hh). split.
      - destruct (is_alpha_ c) eqn:Ha; [|reflexivity].
        apply is_alpha__spec in Ha. tauto.
      - now apply Ascii.eqb_neq. }
    unfold len at 1. rewrite Nat2Z.id.
    destruct (IsHostname_loop_numeric s s "" (mk_hstate "." false 0)
                eq_refl eq_refl Hs) as [R | (st' & R & Hn)];
      change (len "") with 0 in R; rewrite R.
    + reflexivity.
    + rewrite Hn. now destruct (Ascii.eqb (last st') "-" || (partlen st' >? 63)).
Qed.

(** The dotted numeric string "127.0.0.1" is not a hostname. *)
Lemma IsHostname_numeric_witness :
  IsHostname "127.0.0.1" = Some false.
Proof.
  apply (IsHostname_numeric "127.0.0.1").
  - intros c Hc. unfold bytes in Hc. simpl in Hc.
    unfold ascii_letter.
    repeat (destruct Hc as [<- | Hc];
            [split; [cbv; lia | split; discriminate]|]).
    contradiction.
  - discriminate.
Defined.

End validators_facts.

(** ** Package server: TLS resolution *)

Module loadTLSConfig_facts.
Import Go Go_facts server server_spec.

Section WithPlatform.
Context {X509Cert Certificate Provider GetCertFn : Type}.
Variable P : @Platform X509Cert Certificate Provider GetCertFn.

Lemma len_gtb_nonempty (s : string) : s <> "" -> (len s >? 0) = true.
Proof.
  intro H. rewrite Z.gtb_ltb. apply Z.ltb_lt.
  pose proof (len_nonneg s) as H0.
  destruct (Z.eq_dec (len s) 0) as [E|E]; [|lia].
  apply len_empty_iff in E. contradiction.
Qed.

Lemma len_gtb_empty : (len "" >? 0) = false.
Proof. reflexivity. Qed.

Lemma setClientAuth_off (cfg : Config) (dir : string) (tc : TLSConfig) :
  TLSClientAuth cfg = false -> setClientAuth P cfg dir tc = Ok tc.
Proof. intro H. unfold setClientAuth. now rewrite H. Qed.

(** What a successful mutual-TLS step leaves in the configuration. *)
Lemma setClientAuth_on (cfg : Config) (dir : string) (tc tc' : TLSConfig) :
  TLSClientAuth cfg = true ->
  setClientAuth P cfg dir tc = Ok tc' ->
  exists ca,
    loadCACert P cfg dir = Ok ca /\
    snd (AppendCertsFromPEM P NewCertPool ca) = true /\
    tc' = mk_TLSConfig (MinVersion tc) VerifyClientCertIfGiven
            (Some (fst (AppendCertsFromPEM P NewCertPool ca)))
            (Certificates tc) (GetCertificate tc).
Proof.
  intros Hon H. unfold setClientAuth in H. rewrite Hon in H.
  destruct (loadCACert P cfg dir) as [ca|e]; [|discriminate].
  exists ca. destruct (AppendCertsFromPEM P NewCertPool ca) as [pool ok].
  destruct ok; simpl in H; [|discriminate].
  injection H as <-. auto.
Qed.

(** The server-certificate step keeps the client-auth mode and the CA pool
    of the configuration it is given. *)
Lemma setServerCert_keeps (cfg : Config) (dir : string) (tc tc' : TLSConfig)
    (w : option tlsCertWatchFn) :
  setServerCert P cfg dir tc = Ok (Some tc', w) ->
  ClientAuth tc' = ClientAuth tc /\ ClientCAs tc' = ClientCAs tc.
Proof.
  unfold setServerCert. intro H.
  destruct (String.eqb (TLSCertPEM cfg) "" && String.eqb (TLSKeyPEM cfg) "").
  - destruct (String.eqb dir ""); [discriminate|].
    destruct (newTLSCertProvider P dir) as [[p|]|e]; try discriminate.
    injection H as <- _. auto.
  - destruct (String.eqb (TLSCertPEM cfg) "" || String.eqb (TLSKeyPEM cfg) "");
      [discriminate|].
    destruct (tls_X509KeyPair P (TLSCertPEM cfg) (TLSKeyPEM cfg));
      [|discriminate].
    injection H as <- _. auto.
Qed.

Lemma setServerCert_partial (cfg : Config) (dir : string) (tc : TLSConfig) :
  exactly_one_inline cfg -> setServerCert P cfg dir tc = Ok (None, None).
Proof.
  unfold setServerCert.
  intros [[Hc Hk] | [Hc Hk]]; rewrite Hk || rewrite Hc.
  - now rewrite (eqb_empty_false _ Hc).
  - now rewrite (eqb_empty_false _ Hk).
Qed.

(** C1, as the code has it.  When exactly one of the inline certificate and
    key is given, [loadTLSConfig] does not report it: it returns
    [(nil, nil, nil)], TLS is disabled.  The only error it can return then
    is the error of the mutual-TLS step; with client authentication off
    there is none. *)
Theorem loadTLSConfig_partial_pair_disables_TLS (cfg : Config) :
  exactly_one_inline cfg ->
  (loadTLSConfig P cfg = Ok (None, None) \/
   exists e,
     loadTLSConfig P cfg = Err e /\
     setClientAuth P cfg (resolveTLSPath P cfg) (newTLSConfig P) = Err e) /\
  (client_auth_ready P cfg \/ TLSClientAuth cfg = false ->
   loadTLSConfig P cfg = Ok (None, None)).
Proof.
  intro H. unfold loadTLSConfig, client_auth_ready. split.
  - destruct (setClientAuth P cfg (resolveTLSPath P cfg) (newTLSConfig P))
      as [tc|e].
    + left. now apply setServerCert_partial.
    + right. exists e. auto.
  - intros [[tc Htc] | Hoff].
    + rewrite Htc. now apply setServerCert_partial.
    + rewrite (setClientAuth_off _ _ _ Hoff). now apply setServerCert_partial.
Qed.

(** C3, as the code has it.  With no inline certificate, no inline key, no
    [tlsPath] and no loaded configuration file, [loadTLSConfig] returns
    [(nil, nil, nil)] exactly when the mutual-TLS step does not fail: client
    authentication is off, or the inline CA is there and parses.  Otherwise
    it returns the error of the mutual-TLS step: no CA certificate to be
    found, or no certificate in the inline CA.  It never returns a TLS
    configuration or a watch function. *)
Theorem loadTLSConfig_nothing_disables_TLS (cfg : Config) :
  TLSCertPEM cfg = "" ->
  TLSKeyPEM cfg = "" ->
  TLSPath cfg = "" ->
  LoadedConfigPath cfg = "" ->
  (loadTLSConfig P cfg = Ok (None, None) <->
   TLSClientAuth cfg = false \/
   (TLSCAPEM cfg <> "" /\
    snd (AppendCertsFromPEM P NewCertPool (TLSCAPEM cfg)) = true)) /\
  (TLSClientAuth cfg = true ->
   TLSCAPEM cfg = "" ->
   loadTLSConfig P cfg
   = Err (errors_New "cannot find a CA certificate, which is required when `tlsClientAuth` is enabled: no path specified in option `tlsPath`, and no config file was loaded")) /\
  (TLSClientAuth cfg = true ->
   TLSCAPEM cfg <> "" ->
   snd (AppendCertsFromPEM P NewCertPool (TLSCAPEM cfg)) = false ->
   loadTLSConfig P cfg
   = Err (errors_New
            "failed to import CA certificate from PEM found at path ''")) /\
  (forall otc ow,
     loadTLSConfig P cfg = Ok (otc, ow) -> otc = None /\ ow = None).
Proof.
  intros Hc Hk Hp Hf.
  assert (Hdir : resolveTLSPath P cfg = "").
  { unfold resolveTLSPath. now rewrite Hp, Hf. }
  assert (Hsrv : forall tc, setServerCert P cfg "" tc = Ok (None, None)).
  { intro tc. unfold setServerCert. now rewrite Hc, Hk. }
  unfold loadTLSConfig. rewrite Hdir. unfold setClientAuth, loadCACert.
  destruct (TLSClientAuth cfg).
  - destruct (string_dec (TLSCAPEM cfg) "") as [E|E].
    + rewrite E. simpl. split; [|split; [|split]].
      * split; [discriminate|].
        intros [?|[? _]]; [discriminate | contradiction].
      * reflexivity.
      * intros _ N. contradiction.
      * discriminate.
    + rewrite (len_gtb_nonempty _ E).
      destruct (AppendCertsFromPEM P NewCertPool (TLSCAPEM cfg)) as [pool ok].
      destruct ok; simpl.
      * split; [|split; [|split]].
        -- split; [auto | intros _; apply Hsrv].
        -- intros _ N. contradiction.
        -- discriminate.
        -- intros otc ow H. rewrite Hsrv in H. now injection H as <- <-.
      * split; [|split; [|split]].
        -- split; [discriminate|]. intros [?|[_ ?]]; discriminate.
        -- intros _ N. contradiction.
        -- reflexivity.
        -- discriminate.
  - split; [|split; [|split]].
    + split; [auto | intros _; apply Hsrv].
    + discriminate.
    + discriminate.
    + intros otc ow H. rewrite Hsrv in H. now injection H as <- <-.
Qed.

(** C4.  With client authentication requested, [loadTLSConfig] returns an
    error whenever the CA bytes cannot be obtained or parsed. *)
Theorem loadTLSConfig_mtls_needs_CA (cfg : Config) :
  TLSClientAuth cfg = true ->
  ca_unavailable P cfg ->
  exists e, loadTLSConfig P cfg = Err e.
Proof.
  intros Hon H. unfold loadTLSConfig, setClientAuth, loadCACert.
  rewrite Hon. unfold ca_unavailable in H. cbv zeta in H.
  destruct H as [[Hca Hd] | [(Hca & Hd & e & Hr) | [[Hca Hp] |
                 (Hca & Hd & b & Hr & Hp)]]].
  - rewrite Hca, Hd. simpl. eexists; reflexivity.
  - rewrite Hca, len_gtb_empty, (eqb_empty_false _ Hd), Hr.
    eexists; reflexivity.
  - rewrite (len_gtb_nonempty _ Hca).
    destruct (AppendCertsFromPEM P NewCertPool (TLSCAPEM cfg)) as [pool ok].
    simpl in Hp. subst ok. simpl. eexists; reflexivity.
  - rewrite Hca, len_gtb_empty, (eqb_empty_false _ Hd), Hr.
    destruct (AppendCertsFromPEM P NewCertPool b) as [pool ok].
    simpl in Hp. subst ok. simpl. eexists; reflexivity.
Qed.

(** C5.  A TLS configuration returned by [loadTLSConfig] when client
    authentication is requested has the mode verify-if-given, not
    require-and-verify, and its client CAs are the pool built from the CA
    bytes, which holds at least one certificate. *)
Theorem loadTLSConfig_mtls_verify_if_given (cfg : Config) (tc : TLSConfig)
    (w : option tlsCertWatchFn) :
  TLSClientAuth cfg = true ->
  loadTLSConfig P cfg = Ok (Some tc, w) ->
  ClientAuth tc = VerifyClientCertIfGiven /\
  ClientAuth tc <> RequireAndVerifyClientCert /\
  exists ca,
    loadCACert P cfg (resolveTLSPath P cfg) = Ok ca /\
    ClientCAs tc = Some (fst (AppendCertsFromPEM P NewCertPool ca)) /\
    pool_certs (fst (AppendCertsFromPEM P NewCertPool ca)) <> [].
Proof.
  intros Hon H. unfold loadTLSConfig in H.
  destruct (setClientAuth P cfg (resolveTLSPath P cfg) (newTLSConfig P))
    as [tc1|e] eqn:H1; [|discriminate].
  destruct (setClientAuth_on _ _ _ _ Hon H1) as (ca & Hca & Hok & ->).
  destruct (setServerCert_keeps _ _ _ _ _ H) as [Hm Hp].
  simpl in Hm, Hp. rewrite Hm, Hp.
  split; [reflexivity|]. split; [discriminate|].
  exists ca. split; [exact Hca|]. split; [reflexivity|].
  unfold AppendCertsFromPEM in *. simpl in *.
  destruct (pem_certificates P ca); [discriminate | discriminate].
Qed.

(** C6, as the code has it.  With both inline values given and forming a
    valid pair, and the mutual-TLS step not failing, [loadTLSConfig] returns
    a TLS configuration whose certificates are exactly the parsed pair, with
    no certificate callback, and no watch function. *)
Theorem loadTLSConfig_inline_pair (cfg : Config) (cert : Certificate) :
  TLSCertPEM cfg <> "" ->
  TLSKeyPEM cfg <> "" ->
  tls_X509KeyPair P (TLSCertPEM cfg) (TLSKeyPEM cfg) = Ok cert ->
  client_auth_ready P cfg ->
  exists tc,
    loadTLSConfig P cfg = Ok (Some tc, None) /\
    Certificates tc = [cert] /\
    GetCertificate tc = None.
Proof.
  intros Hc Hk Hpair [tc1 H1]. unfold loadTLSConfig. rewrite H1.
  unfold setServerCert.
  rewrite (eqb_empty_false _ Hc), (eqb_empty_false _ Hk), Hpair. simpl.
  eexists. split; [reflexivity|]. split; [reflexivity|]. simpl.
  unfold setClientAuth in H1.
  destruct (TLSClientAuth cfg).
  - destruct (loadCACert P cfg (resolveTLSPath P cfg)); [|discriminate].
    destruct (AppendCertsFromPEM P NewCertPool v) as [pool ok].
    destruct ok; simpl in H1; [|discriminate]. now injection H1 as <-.
  - now injection H1 as <-.
Qed.

End WithPlatform.

(** [cfg_cert_only] gives a certificate and no key, and [loadTLSConfig]
    returns no error for it. *)
Lemma loadTLSConfig_partial_pair_no_error :
  exactly_one_inline demo.cfg_cert_only /\
  loadTLSConfig demo.platform demo.cfg_cert_only = Ok (None, None) /\
  ~ (exists e, loadTLSConfig demo.platform demo.cfg_cert_only = Err e).
Proof.
  split; [|split].
  - left. split; [discriminate | reflexivity].
  - reflexivity.
  - intros [e H]. discriminate H.
Qed.

Lemma loadTLSConfig_partial_pair_witness :
  loadTLSConfig demo.platform demo.cfg_cert_only = Ok (None, None).
Proof.
  apply (loadTLSConfig_partial_pair_disables_TLS demo.platform
           demo.cfg_cert_only).
  - left. split; [discriminate | reflexivity].
  - right. reflexivity.
Defined.

(** [cfg_mtls_nothing] has no inline certificate or key and no TLS
    directory, and [loadTLSConfig] returns an error for it. *)
Lemma loadTLSConfig_nothing_mtls_error :
  TLSCertPEM demo.cfg_mtls_nothing = "" /\
  TLSKeyPEM demo.cfg_mtls_nothing = "" /\
  TLSPath demo.cfg_mtls_nothing = "" /\
  LoadedConfigPath demo.cfg_mtls_nothing = "" /\
  loadTLSConfig demo.platform demo.cfg_mtls_nothing <> Ok (None, None) /\
  exists e, loadTLSConfig demo.platform demo.cfg_mtls_nothing = Err e.
Proof.
  repeat (split; [reflexivity|]). split.
  - discriminate.
  - eexists. reflexivity.
Qed.

Lemma loadTLSConfig_nothing_witness :
  loadTLSConfig demo.platform demo.cfg_nothing = Ok (None, None) /\
  loadTLSConfig demo.platform demo.cfg_mtls_nothing
  = Err (errors_New "cannot find a CA certificate, which is required when `tlsClientAuth` is enabled: no path specified in option `tlsPath`, and no config file was loaded").
Proof.
  split.
  - destruct (loadTLSConfig_nothing_disables_TLS demo.platform
                demo.cfg_nothing eq_refl eq_refl eq_refl eq_refl)
      as (H & _).
    apply H. left. reflexivity.
  - destruct (loadTLSConfig_nothing_disables_TLS demo.platform
                demo.cfg_mtls_nothing eq_refl eq_refl eq_refl eq_refl)
      as (_ & H & _).
    apply H; reflexivity.
Defined.

Lemma loadTLSConfig_mtls_needs_CA_witness :
  exists e, loadTLSConfig demo.platform demo.cfg_mtls_nothing = Err e.
Proof.
  apply (loadTLSConfig_mtls_needs_CA demo.platform demo.cfg_mtls_nothing).
  - reflexivity.
  - left. split; reflexivity.
Defined.

Lemma loadTLSConfig_mtls_verify_if_given_witness :
  exists tc,
    loadTLSConfig demo.platform demo.cfg_pair_mtls = Ok (Some tc, None) /\
    ClientAuth tc = VerifyClientCertIfGiven.
Proof.
  eexists. split; [reflexivity|].
  apply (loadTLSConfig_mtls_verify_if_given demo.platform demo.cfg_pair_mtls
           _ None); reflexivity.
Defined.

(** [cfg_pair_mtls_no_ca] gives a valid inline pair, and [loadTLSConfig]
    returns an error for it, not a TLS configuration. *)
Lemma loadTLSConfig_inline_pair_mtls_error :
  TLSCertPEM demo.cfg_pair_mtls_no_ca <> "" /\
  TLSKeyPEM demo.cfg_pair_mtls_no_ca <> "" /\
  tls_X509KeyPair demo.platform (TLSCertPEM demo.cfg_pair_mtls_no_ca)
    (TLSKeyPEM demo.cfg_pair_mtls_no_ca) = Ok ("CERT", "KEY") /\
  (exists e, loadTLSConfig demo.platform demo.cfg_pair_mtls_no_ca = Err e) /\
  ~ (exists tc w,
       loadTLSConfig demo.platform demo.cfg_pair_mtls_no_ca = Ok (Some tc, w)).
Proof.
  split; [discriminate|]. split; [discriminate|]. split; [reflexivity|].
  split.
  - eexists. reflexivity.
  - intros (tc & w & H). discriminate H.
Qed.

Lemma loadTLSConfig_inline_pair_witness :
  exists tc,
    loadTLSConfig demo.platform demo.cfg_pair = Ok (Some tc, None) /\
    Certificates tc = [("CERT", "KEY")] /\
    GetCertificate tc = None.
Proof.
  apply (loadTLSConfig_inline_pair demo.platform demo.cfg_pair).
  - discriminate.
  - discriminate.
  - reflexivity.
  - eexists. reflexivity.
Defined.

End loadTLSConfig_facts.

(** ** Package server: supervision *)

Module Run_facts.
Import Go server server_spec.

Lemma precedes_here {A : Type} (a b : A) (l : list A) :
  In b l -> precedes a b (a :: l).
Proof.
  intro H. apply in_split in H as (l2 & l3 & ->).
  exists [], l2, l3. reflexivity.
Qed.

Lemma precedes_later {A : Type} (a b x : A) (l : list A) :
  precedes a b l -> precedes a b (x :: l).
Proof. intros (l1 & l2 & l3 & ->). exists (x :: l1), l2, l3. reflexivity. Qed.

Lemma ends_with_here {A : Type} (suf : list A) : ends_with suf suf.
Proof. exists []. reflexivity. Qed.

Lemma ends_with_later {A : Type} (suf l : list A) (x : A) :
  ends_with suf l -> ends_with suf (x :: l).
Proof. intros [pre ->]. exists (x :: pre). reflexivity. Qed.

(** Splits on the next thing the run depends on. *)
Ltac run_case H :=
  match type of H with
  | context [match ?x with _ => _ end] =>
      lazymatch x with
      | context [match _ with _ => _ end] => fail
      | _ => destruct x eqn:?
      end
  | context [if ?x then _ else _] =>
      lazymatch x with
      | context [if _ then _ else _] => fail
      | _ => destruct x eqn:?
      end
  end.

(** Unfolds a call of [Run] down to the calls into the environment. *)
Ltac run_eval :=
  cbv beta iota zeta delta
    [Run Run_body startAppServer startMetricsServer wg_Add wg_Done wg_Wait
     bind get_srv put_srv defer emit ret run_defers call_deferred
     set_running set_wg set_appSrv set_metricsSrv set_appListener
     set_metricsListener CompareAndSwap Bool.eqb
     m_srv m_trace m_defers running wg appSrv metricsSrv
     srv_tlsCertWatchFn tlsConfig appListener metricsListener app].

Ltac run_eval_in H :=
  cbv beta iota zeta delta
    [Run Run_body startAppServer startMetricsServer wg_Add wg_Done wg_Wait
     bind get_srv put_srv defer emit ret run_defers call_deferred
     set_running set_wg set_appSrv set_metricsSrv set_appListener
     set_metricsListener CompareAndSwap Bool.eqb
     m_srv m_trace m_defers running wg appSrv metricsSrv
     srv_tlsCertWatchFn tlsConfig appListener metricsListener app] in H.

Ltac in_solve := simpl; repeat first [left; reflexivity | right].

Ltac in_absurd H :=
  simpl in H; repeat (destruct H as [H|H]; [discriminate H|]); contradiction.

Ltac order_solve :=
  repeat first [ apply precedes_here; solve [in_solve]
               | apply precedes_later ].

Ltac ends_solve :=
  repeat first [ apply ends_with_here | apply ends_with_later ].

Section WithEnv.
Context {X509Cert Certificate GetCertFn Listener : Type}.
Local Abbreviation Server := (@Server X509Cert Certificate GetCertFn Listener).
Variable env : @Env Listener.

(** A second call is refused: with the flag set, [Run] returns the
    "already running" error, does nothing, and leaves the server as it
    is. *)
Lemma Run_already_running (cfg : Config) (ctx : Context) (s : Server) :
  running s = true ->
  Run env cfg ctx s
  = (s, [], Returns (Some (errors_New "server is already running"))).
Proof. intro H. unfold Run. now rewrite H. Qed.

(** C2, where the code falls short.  When the application listener cannot
    be created, [Run] executes its [return] with the error, but the deferred
    [wg.Wait()] then finds the counter left at one by the [wg.Add(1)] made
    before the start, with no [wg.Done()] deferred: [Run] stays blocked
    there, and the running flag is never stored back to false. *)
Theorem Run_start_failure_keeps_flag (cfg : Config) (ctx : Context)
    (s : Server) (e : error) :
  running s = false ->
  0 <= wg s ->
  appListener s = None ->
  net_Listen env AppServer (JoinHostPort env (Bind cfg) (Port cfg)) = Err e ->
  exists s' tr,
    Run env cfg ctx s = (s', tr, Blocks AtWgWait) /\
    running s' = true /\
    ~ In (EvStoreRunning false) tr /\
    ~ In (EvGo AppServer) tr.
Proof.
  intros Hr Hw Hl He. destruct s as [aS mS wf tc r w aL mL].
  simpl in Hr, Hw, Hl. subst r aL.
  run_eval.
  destruct (Z.ltb_spec (w + 1) 0) as [Hlt|_]; [lia|].
  destruct tc; rewrite He;
    (destruct (Z.eqb_spec (w + 1) 0) as [Heq|_]; [lia|]);
    (eexists; eexists; split; [reflexivity|]; split; [reflexivity|]);
    simpl; split; intro H;
    repeat (destruct H as [H|H]; [discriminate H|]); exact H.
Qed.

(** Take any call of [Run] on an idle server in which both servers were
    started.  If the context is cancelled, [Run] returns.  If the call got
    past the wait for the cancellation, it returns nil, and the shutdown
    comes after the cancellation.  And unless the call stays blocked on a
    context that is never cancelled, the metrics server is shut down before
    the application server, the application server before the wait on the
    wait group, which finds the counter back at zero, and [Run] returns
    after that wait and the reset of the running flag. *)
Lemma Run_shutdown_order (cfg : Config) (ctx : Context) (s s' : Server)
    (tr : list event) (out : outcome) :
  running s = false ->
  wg s = 0 ->
  Run env cfg ctx s = (s', tr, out) ->
  In (EvGo AppServer) tr ->
  In (EvGo MetricsServer) tr ->
  (ctx_done ctx = true -> exists r, out = Returns r) /\
  (In EvCtxDone tr ->
   out = Returns None /\
   precedes EvCtxDone (EvShutdown MetricsServer 500) tr) /\
  (out = Blocks AtCtxDone \/
   (precedes (EvShutdown MetricsServer 500) (EvShutdown AppServer 5000) tr /\
    precedes (EvShutdown AppServer 5000) EvWgWait tr /\
    ends_with [EvWgWait; EvStoreRunning false] tr /\
    wg s' = 0 /\
    running s' = false /\
    exists r, out = Returns r)).
Proof.
  intros Hr Hw H Ha Hm.
  destruct env as [jhp nl sd], cfg, ctx as [done], s as [aS mS wf tc r w aL mL].
  simpl in Hr, Hw. subst r w. cbv in H.
  repeat (run_case H; cbv beta iota in H);
    injection H as <- <- <-;
    try (in_absurd Ha); try (in_absurd Hm).
  all: split;
    [intro Hd; simpl in Hd; first [discriminate Hd | eexists; reflexivity]|].
  all: split;
    [intro Hc; first [in_absurd Hc | split; [reflexivity | order_solve]]|].
  all: first [left; reflexivity | right].
  all: repeat split; try order_solve; try ends_solve.
  all: eexists; reflexivity.
Qed.

(** C8.  Take a call of [Run] on an idle server whose listeners can be
    had.  If the watch function is there and returns an error, [Run] returns
    an error wrapping it, after the servers that were started have been shut
    down by the deferred calls, and with the running flag reset.  If the
    watch function is absent or returns nil and the context is cancelled,
    [Run] returns nil whatever the two [Shutdown] calls return; their
    errors are only logged. *)
Theorem Run_watch_error_and_shutdown_errors (cfg : Config) (ctx : Context)
    (s s' : Server) (tr : list event) (out : outcome) :
  running s = false ->
  wg s = 0 ->
  can_listen env AppServer (appListener s) (Bind cfg) (Port cfg) ->
  (EnableMetrics cfg = true ->
   can_listen env MetricsServer (metricsListener s)
     (MetricsBind cfg) (MetricsPort cfg)) ->
  Run env cfg ctx s = (s', tr, out) ->
  (forall w e,
     srv_tlsCertWatchFn s = Some w -> w ctx = Some e ->
     out = Returns (Some (Errorf_w "failed to watch for TLS certificates" e))
     /\ Unwrap (Errorf_w "failed to watch for TLS certificates" e) = Some e
     /\ precedes (EvGo AppServer) (EvShutdown AppServer 5000) tr
     /\ precedes EvWatch (EvShutdown AppServer 5000) tr
     /\ (EnableMetrics cfg = true ->
         precedes (EvGo MetricsServer) (EvShutdown MetricsServer 500) tr /\
         precedes EvWatch (EvShutdown MetricsServer 500) tr)
     /\ ends_with [EvWgWait; EvStoreRunning false] tr
     /\ running s' = false) /\
  ((forall w, srv_tlsCertWatchFn s = Some w -> w ctx = None) ->
   ctx_done ctx = true ->
   out = Returns None
   /\ (forall e, Shutdown env AppServer = Some e ->
        In (EvLogWarn "App server shutdown error" e) tr)
   /\ (forall e, EnableMetrics cfg = true ->
        Shutdown env MetricsServer = Some e ->
        In (EvLogWarn "Metrics server shutdown error" e) tr)).
Proof.
  intros Hr Hw Ha Hm H.
  destruct env as [jhp nl sd], cfg, ctx as [done], s as [aS mS wf tc r w aL mL].
  unfold can_listen in Ha, Hm. simpl in Hr, Hw, Ha, Hm. subst r w.
  assert (Ha' : exists l, aL = Some l \/
                  (aL = None /\ nl AppServer (jhp Bind0 Port0) = Ok l)).
  { destruct aL as [l|]; [exists l; now left|].
    destruct Ha as [Ha|[l Ha]]; [congruence | exists l; now right]. }
  clear Ha. destruct Ha' as [la Ha].
  assert (Hm' : EnableMetrics0 = false \/
                (EnableMetrics0 = true /\ exists l, mL = Some l \/
                  (mL = None /\
                   nl MetricsServer (jhp MetricsBind0 MetricsPort0) = Ok l))).
  { destruct EnableMetrics0; [right; split; [reflexivity|] | now left].
    destruct mL as [l|]; [exists l; now left|].
    destruct (Hm eq_refl) as [Hm'|[l Hm']]; [congruence | exists l; now right]. }
  clear Hm.
  split.
  - intros wfn e Hwf He. simpl in Hwf. subst wf.
    destruct Ha as [->|[-> Ha]], Hm' as [->|[-> [lm [->|[-> Hm']]]]];
      cbv in H; try rewrite Ha in H; try rewrite Hm' in H; rewrite He in H;
      repeat (run_case H; cbv beta iota in H);
      injection H as <- <- <-.
    all: split; [reflexivity|]. all: split; [reflexivity|].
    all: split; [order_solve|]. all: split; [order_solve|].
    all: split; [intro Hd; first [discriminate Hd | split; order_solve]|].
    all: split; [ends_solve | reflexivity].
  - intros Hwf Hd. simpl in Hwf, Hd. subst done.
    assert (Hwf' : wf = None \/ exists wfn, wf = Some wfn /\ wfn (mk_Context true) = None).
    { destruct wf as [wfn|]; [right|now left]. exists wfn. auto. }
    clear Hwf.
    destruct Ha as [->|[-> Ha]], Hm' as [->|[-> [lm [->|[-> Hm']]]]],
             Hwf' as [->|[wfn [-> Hwf']]];
      cbv in H; try rewrite Ha in H; try rewrite Hm' in H;
      try rewrite Hwf' in H;
      repeat (run_case H; cbv beta iota in H);
      injection H as <- <- <-.
    all: split; [reflexivity|].
    all: split; [intros e' He'; simpl in He'|intros e' Hen He'; simpl in He'].
    all: try discriminate.
    all: match goal with
         | Hx : ?a = None, Hy : ?a = Some _ |- _ =>
             rewrite Hx in Hy; discriminate Hy
         | Hx : ?a = Some ?e0, Hy : ?a = Some ?e1 |- _ =>
             lazymatch e0 with
             | e1 => fail
             | _ => rewrite Hx in Hy; injection Hy as <-
             end
         end.
    all: in_solve.
Qed.

(** The same happens when the application server starts and the metrics
    listener cannot be created: the application server is shut down by its
    deferred call, and [Run] stays blocked in [wg.Wait()] with the counter at
    one and the flag still set. *)
Lemma Run_metrics_start_failure_keeps_flag (cfg : Config) (ctx : Context)
    (s s' : Server) (tr : list event) (out : outcome) (e : error) :
  running s = false ->
  wg s = 0 ->
  can_listen env AppServer (appListener s) (Bind cfg) (Port cfg) ->
  EnableMetrics cfg = true ->
  metricsListener s = None ->
  net_Listen env MetricsServer
    (JoinHostPort env (MetricsBind cfg) (MetricsPort cfg)) = Err e ->
  Run env cfg ctx s = (s', tr, out) ->
  out = Blocks AtWgWait /\
  running s' = true /\
  wg s' = 1 /\
  In (EvShutdown AppServer 5000) tr /\
  ~ In (EvStoreRunning false) tr.
Proof.
  intros Hr Hw Ha Hen Hml He H.
  destruct env as [jhp nl sd], cfg, ctx as [done], s as [aS mS wf tc r w aL mL].
  unfold can_listen in Ha. simpl in Hr, Hw, Ha, Hen, Hml, He.
  subst r w EnableMetrics0 mL.
  assert (Ha' : exists l, aL = Some l \/
                  (aL = None /\ nl AppServer (jhp Bind0 Port0) = Ok l)).
  { destruct aL as [l|]; [exists l; now left|].
    destruct Ha as [Ha|[l Ha]]; [congruence | exists l; now right]. }
  clear Ha. destruct Ha' as [la [->|[-> Ha]]];
    cbv in H; try rewrite Ha in H; rewrite He in H;
    repeat (run_case H; cbv beta iota in H);
    injection H as <- <- <-.
  all: repeat (split; [first [reflexivity | in_solve]|]).
  all: intro Hin; in_absurd Hin.
Qed.

(** Whenever [Run] returns on an idle server, the last thing it did was to
    store false in the flag, and the server is idle again. *)
Lemma Run_returns_resets_flag (cfg : Config) (ctx : Context) (s s' : Server)
    (tr : list event) (r : option error) :
  running s = false ->
  wg s = 0 ->
  Run env cfg ctx s = (s', tr, Returns r) ->
  running s' = false /\ wg s' = 0 /\ ends_with [EvStoreRunning false] tr.
Proof.
  intros Hr Hw H.
  destruct env as [jhp nl sd], cfg, ctx as [done], s as [aS mS wf tc r0 w aL mL].
  simpl in Hr, Hw. subst r0 w. destruct EnableMetrics0; cbv in H;
    repeat (run_case H; cbv beta iota in H);
    try discriminate H; injection H as <- <- <-.
  all: split; [reflexivity | split; [reflexivity | ends_solve]].
Qed.

End WithEnv.

Lemma Run_start_failure_keeps_flag_witness :
  exists s' tr,
    Run demo.env_port_taken demo.cfg_nothing (mk_Context true) demo.fresh
    = (s', tr, Blocks AtWgWait) /\
    running s' = true /\
    ~ In (EvStoreRunning false) tr /\
    ~ In (EvGo AppServer) tr.
Proof.
  apply (Run_start_failure_keeps_flag demo.env_port_taken demo.cfg_nothing
           (mk_Context true) demo.fresh
           (errors_New "bind: address already in use")).
  - reflexivity.
  - simpl. lia.
  - reflexivity.
  - reflexivity.
Defined.

Lemma Run_watch_error_witness :
  exists s' tr,
    Run demo.env_ok demo.cfg_nothing (mk_Context true) demo.fresh_bad_watch
    = (s', tr,
       Returns (Some (Errorf_w "failed to watch for TLS certificates"
                        (errors_New "inotify: too many open files")))) /\
    precedes EvWatch (EvShutdown AppServer 5000) tr /\
    running s' = false.
Proof.
  eexists. eexists. split; [cbv; reflexivity|].
  edestruct (Run_watch_error_and_shutdown_errors demo.env_ok demo.cfg_nothing
               (mk_Context true) demo.fresh_bad_watch)
    as [H1 _].
  - reflexivity.
  - reflexivity.
  - right. eexists. reflexivity.
  - intros _. right. eexists. reflexivity.
  - cbv. reflexivity.
  - destruct (H1 _ _ eq_refl eq_refl) as (_ & _ & _ & Hp & _ & _ & Hf).
    split; [exact Hp | exact Hf].
Defined.

End Run_facts.

(** ** Package regexp *)

Module regexp_facts.
Import Go Go_facts regexp regexp_spec spec.

Lemma nullable_matches (r : Regexp) : nullable r = true <-> matches r [].
Proof.
  induction r as [| |rs|a IHa b IHb|a IHa b IHb|a IHa]; simpl.
  - split; [discriminate | intro H; inversion H].
  - split; [constructor | reflexivity].
  - split; [discriminate | intro H; inversion H].
  - rewrite andb_true_iff, IHa, IHb. split.
    + intros [Ha Hb]. apply (M_Concat a b [] [] Ha Hb).
    + intro H. inversion H; subst.
      match goal with
      | E : (_ ++ _)%list = [] |- _ => apply app_eq_nil in E as [-> ->]
      end.
      auto.
  - rewrite orb_true_iff, IHa, IHb. split.
    + intros [H|H]; [now apply M_AltL | now apply M_AltR].
    + intro H. inversion H; subst; auto.
  - split; [constructor | reflexivity].
Qed.

Lemma deriv_sound (c : ascii) (r : Regexp) :
  forall w, matches (deriv c r) w -> matches r (c :: w).
Proof.
  induction r as [| |rs|a IHa b IHb|a IHa b IHb|a IHa]; simpl; intros w H.
  - inversion H.
  - inversion H.
  - destruct (in_class rs c) eqn:E; inversion H; subst. now constructor.
  - destruct (nullable a) eqn:N.
    + inversion H as [| | | a' b' u Hu | a' b' u Hu | |]; subst.
      * inversion Hu as [| |a' b' u v Hu1 Hv1| | | |]; subst.
        apply (M_Concat a b (c :: u) v); auto.
      * apply (M_Concat a b [] (c :: w)); [now apply nullable_matches | auto].
    + inversion H as [| |a' b' u v Hu1 Hv1| | | |]; subst.
      apply (M_Concat a b (c :: u) v); auto.
  - inversion H; subst; [apply M_AltL | apply M_AltR]; auto.
  - inversion H as [| |a' b' u v Hu1 Hv1| | | |]; subst.
    apply (M_StarS a (c :: u) v); auto.
Qed.

Lemma deriv_complete (c : ascii) (r : Regexp) (w : list ascii) :
  forall cw, matches r cw -> cw = c :: w -> matches (deriv c r) w.
Proof.
  intros cw H. revert w.
  induction H as [|rs c' Hc|a b u v Hu IHu Hv IHv|a b u Hu IHu|a b u Hu IHu
                  |a|a u v Hu IHu Hv IHv]; intros w E; simpl.
  - discriminate.
  - injection E as -> <-. rewrite Hc. constructor.
  - destruct u as [|c' u]; simpl in E.
    + subst v. apply nullable_matches in Hu. rewrite Hu.
      apply M_AltR. now apply IHv.
    + injection E as -> <-.
      destruct (nullable a).
      * apply M_AltL. apply M_Concat; auto.
      * apply M_Concat; auto.
  - apply M_AltL. now apply IHu.
  - apply M_AltR. now apply IHu.
  - discriminate.
  - destruct u as [|c' u]; simpl in E.
    + subst v. now apply IHv.
    + injection E as -> <-. apply M_Concat; auto.
Qed.

(** The matcher decides the language of the pattern. *)
Lemma MatchString_matches (s : string) :
  forall r, MatchString r s = true <-> matches r (bytes s).
Proof.
  induction s as [|c s IH]; intro r; simpl.
  - apply nullable_matches.
  - rewrite IH. split.
    + apply deriv_sound.
    + intro H. now apply (deriv_complete c r (bytes s) _ H).
Qed.

Lemma matches_may_use (r : Regexp) (w : list ascii) :
  matches r w -> Forall (fun c => may_use r c = true) w.
Proof.
  induction 1 as [|rs c Hc|a b u v Hu IHu Hv IHv|a b u Hu IHu|a b u Hu IHu
                  |a|a u v Hu IHu Hv IHv]; simpl.
  - constructor.
  - constructor; [exact Hc | constructor].
  - apply Forall_app. split.
    + eapply Forall_impl; [|exact IHu]. intros c Hc. simpl in Hc. now rewrite Hc.
    + eapply Forall_impl; [|exact IHv]. intros c Hc. simpl in Hc.
      rewrite Hc. apply orb_true_r.
  - eapply Forall_impl; [|exact IHu]. intros c Hc. simpl in Hc. now rewrite Hc.
  - eapply Forall_impl; [|exact IHu]. intros c Hc. simpl in Hc.
    rewrite Hc. apply orb_true_r.
  - constructor.
  - apply Forall_app. split; assumption.
Qed.

Lemma matches_class (rs : list (ascii * ascii)) (w : list ascii) :
  matches (CharClass rs) w <-> exists c, w = [c] /\ in_class rs c = true.
Proof.
  split.
  - intro H. inversion H; subst. eauto.
  - intros (c & -> & Hc). now constructor.
Qed.

Lemma matches_star_class (rs : list (ascii * ascii)) (w : list ascii) :
  matches (Star (CharClass rs)) w <->
  Forall (fun c => in_class rs c = true) w.
Proof.
  split.
  - intro H. apply matches_may_use in H. exact H.
  - induction 1 as [|c w Hc _ IH].
    + constructor.
    + apply (M_StarS (CharClass rs) [c] w); [now constructor | exact IH].
Qed.

Lemma matches_plus_class (rs : list (ascii * ascii)) (w : list ascii) :
  matches (Plus (CharClass rs)) w <->
  w <> [] /\ Forall (fun c => in_class rs c = true) w.
Proof.
  unfold Plus. split.
  - intro H. inversion H as [| |a b u v Hu Hv| | | |]; subst.
    apply matches_class in Hu as (c & -> & Hc).
    apply matches_star_class in Hv. split; [discriminate|].
    constructor; assumption.
  - intros [Hne H]. destruct w as [|c w]; [contradiction|].
    inversion H; subst.
    apply (M_Concat (CharClass rs) _ [c] w); [now constructor|].
    now apply matches_star_class.
Qed.

Lemma matches_repeat0_class (rs : list (ascii * ascii)) (n : nat) :
  forall w,
    matches (Repeat0 n (CharClass rs)) w <->
    (List.length w <= n)%nat /\ Forall (fun c => in_class rs c = true) w.
Proof.
  induction n as [|n IH]; intro w; simpl.
  - split.
    + intro H. inversion H; subst. split; [simpl; lia | constructor].
    + intros [Hl _]. destruct w; [constructor | simpl in Hl; lia].
  - unfold Quest. split.
    + intro H. inversion H as [| | |a b u Hu|a b u Hu| |]; subst.
      * inversion Hu; subst. split; [simpl; lia | constructor].
      * inversion Hu as [| |a b u' v Hu' Hv| | | |]; subst.
        apply matches_class in Hu' as (c & -> & Hc).
        apply IH in Hv as [Hl Hf]. split; [simpl; lia|].
        constructor; assumption.
    + intros [Hl Hf]. destruct w as [|c w].
      * apply M_AltL. constructor.
      * apply M_AltR. inversion Hf; subst.
        apply (M_Concat (CharClass rs) _ [c] w); [now constructor|].
        apply IH. simpl in Hl. split; [lia | assumption].
Qed.

End regexp_facts.

(** ** Package validators: e-mail addresses *)

Module Email_facts.
Import Go Go_facts regexp regexp_spec regexp_facts validators validators_spec
  spec.

Lemma range_single (x c : ascii) :
  byte_le x c && byte_le c x = Ascii.eqb c x.
Proof.
  destruct (Ascii.eqb_spec c x) as [->|N].
  - assert (H : byte_le x x = true) by (apply byte_le_spec; lia).
    now rewrite H.
  - destruct (byte_le x c) eqn:H1; [|reflexivity].
    destruct (byte_le c x) eqn:H2; [|reflexivity].
    exfalso. apply N. symmetry. now apply Ascii.leb_antisym.
Qed.

Lemma alnum_class (c : ascii) : in_class email_alnum c = true <-> alnum c.
Proof.
  unfold in_class, email_alnum, alnum. simpl.
  rewrite !orb_true_iff, !andb_true_iff, !byte_le_spec.
  change (nat_of_ascii "a") with 97%nat. change (nat_of_ascii "z") with 122%nat.
  change (nat_of_ascii "A") with 65%nat. change (nat_of_ascii "Z") with 90%nat.
  change (nat_of_ascii "0") with 48%nat. change (nat_of_ascii "9") with 57%nat.
  intuition discriminate.
Qed.

Lemma alnum_hyphen_class (c : ascii) :
  in_class email_alnum_hyphen c = true <-> alnum c \/ c = "-"%char.
Proof.
  rewrite <- alnum_class. unfold in_class, email_alnum_hyphen, email_alnum.
  simpl. rewrite range_single, !orb_true_iff, Ascii.eqb_eq.
  intuition discriminate.
Qed.

Lemma local_class (c : ascii) :
  in_class email_local c = true <-> email_local_byte c.
Proof.
  unfold email_local_byte. rewrite <- alnum_class.
  unfold in_class, email_local, email_alnum. simpl.
  rewrite !range_single, !orb_true_iff, !Ascii.eqb_eq.
  intuition (try discriminate; auto 30).
Qed.

Lemma Forall_class_alnum_hyphen (w : list ascii) :
  Forall (fun c => in_class email_alnum_hyphen c = true) w <->
  Forall (fun c => alnum c \/ c = "-"%char) w.
Proof.
  split; intro H; (eapply Forall_impl; [|exact H]); intros c Hc;
    now apply alnum_hyphen_class.
Qed.

Lemma matches_label_shape (R : Regexp) (lab : list ascii) :
  matches (Concat (CharClass email_alnum)
             (Alternate EmptyMatch (Concat R (CharClass email_alnum)))) lab
  <-> exists a, alnum a /\
        (lab = [a] \/
         exists m z, lab = a :: (m ++ [z])%list /\ matches R m /\ alnum z).
Proof.
  split.
  - intro H. inversion H as [| |a b u v Hu Hv| | | |]; subst.
    apply matches_class in Hu as (c & -> & Hc). apply alnum_class in Hc.
    exists c. split; [exact Hc|].
    inversion Hv as [| | |a b u Hu|a b u Hu| |]; subst.
    + inversion Hu; subst. now left.
    + inversion Hu as [| |a b m z Hm Hz| | | |]; subst.
      apply matches_class in Hz as (z' & -> & Hz). apply alnum_class in Hz.
      right. exists m, z'. auto.
  - intros (a & Ha & [-> | (m & z & -> & Hm & Hz)]).
    + apply (M_Concat _ _ [a] []).
      * constructor. now apply alnum_class.
      * apply M_AltL. constructor.
    + apply (M_Concat _ _ [a] (m ++ [z])).
      * constructor. now apply alnum_class.
      * apply M_AltR. apply M_Concat; [exact Hm|].
        constructor. now apply alnum_class.
Qed.

(** What the label pattern of [emailRe] accepts. *)
Lemma matches_email_label (lab : list ascii) :
  matches email_label lab <-> email_label_ok lab.
Proof.
  unfold email_label, Quest. rewrite matches_label_shape.
  unfold email_label_ok. split.
  - intros (a & Ha & [-> | (m & z & -> & Hm & Hz)]).
    + simpl. split; [lia|].
      split; [constructor; [now left | constructor]|].
      split; [exists a, []; auto | exists [], a; auto].
    + apply matches_repeat0_class in Hm as [Hl Hm].
      apply Forall_class_alnum_hyphen in Hm.
      simpl. rewrite length_app. simpl. split; [lia|]. split.
      * constructor; [now left|]. apply Forall_app. split; [exact Hm|].
        constructor; [now left | constructor].
      * split; [exists a, (m ++ [z])%list; auto|].
        exists (a :: m), z. auto.
  - intros (Hl & Hf & (a & rest & -> & Ha) & (front & z & E & Hz)).
    exists a. split; [exact Ha|].
    destruct front as [|a' m]; simpl in E.
    + injection E as -> ->. now left.
    + injection E as <- ->. right. exists m, z.
      split; [reflexivity|]. split; [|exact Hz].
      apply matches_repeat0_class. simpl in Hl. rewrite length_app in Hl.
      simpl in Hl. split; [lia|].
      apply Forall_class_alnum_hyphen.
      inversion Hf as [|x l Hx Hrest]; subst.
      apply Forall_app in Hrest as [Hm _]. exact Hm.
Qed.

Lemma join_dots_cons (lab : list ascii) (labs : list (list ascii)) :
  join_dots (lab :: labs)
  = (lab ++ concat (map (cons "."%char) labs))%list.
Proof.
  revert lab. induction labs as [|l2 labs IH]; intro lab.
  - simpl. now rewrite app_nil_r.
  - change (join_dots (lab :: l2 :: labs))
      with (lab ++ "."%char :: join_dots (l2 :: labs))%list.
    rewrite IH. reflexivity.
Qed.

Lemma matches_dot_labels (v : list ascii) :
  matches (Star (Concat (Literal ".") email_label)) v <->
  exists labs,
    v = concat (map (cons "."%char) labs) /\ Forall email_label_ok labs.
Proof.
  split.
  - intro H. remember (Star (Concat (Literal ".") email_label)) as r eqn:Er.
    induction H as [| | | | | a | a u v Hu _ Hv IHv]; try discriminate.
    + exists []. split; [reflexivity | constructor].
    + injection Er as ->. destruct (IHv eq_refl) as (labs & -> & Hlabs).
      inversion Hu as [| |a b d lab Hd Hlab| | | |]; subst.
      unfold Literal in Hd. apply matches_class in Hd as (c & -> & Hc).
      unfold in_class in Hc. simpl in Hc.
      rewrite range_single, orb_false_r in Hc. apply Ascii.eqb_eq in Hc.
      subst c. exists (lab :: labs). split; [reflexivity|].
      constructor; [now apply matches_email_label | exact Hlabs].
  - intros (labs & -> & Hlabs). induction Hlabs as [|lab labs Hlab _ IH].
    + constructor.
    + simpl. apply (M_StarS _ ("."%char :: lab)); [|exact IH].
      apply (M_Concat _ _ ["."%char] lab).
      * constructor. reflexivity.
      * now apply matches_email_label.
Qed.

(** What [emailRe] accepts. *)
Lemma matches_emailRe (w : list ascii) :
  matches emailRe w <->
  exists l labels,
    w = (l ++ "@"%char :: join_dots labels)%list /\
    l <> [] /\ Forall email_local_byte l /\
    labels <> [] /\ Forall email_label_ok labels.
Proof.
  unfold emailRe. split.
  - intro H. inversion H as [| |a b l v Hl Hv| | | |]; subst.
    apply matches_plus_class in Hl as [Hne Hl].
    inversion Hv as [| |a b at_ d Hat Hd| | | |]; subst.
    unfold Literal in Hat. apply matches_class in Hat as (c & -> & Hc).
    unfold in_class in Hc. simpl in Hc.
    rewrite range_single, orb_false_r in Hc. apply Ascii.eqb_eq in Hc.
    subst c.
    inversion Hd as [| |a b lab rest Hlab Hrest| | | |]; subst.
    apply matches_email_label in Hlab.
    apply matches_dot_labels in Hrest as (labs & -> & Hlabs).
    exists l, (lab :: labs). rewrite join_dots_cons.
    split; [reflexivity|]. split; [exact Hne|]. split.
    + eapply Forall_impl; [|exact Hl]. intros c Hc. now apply local_class.
    + split; [discriminate | now constructor].
  - intros (l & labels & -> & Hne & Hl & Hlne & Hlabs).
    destruct labels as [|lab labs]; [contradiction|].
    inversion Hlabs; subst. rewrite join_dots_cons.
    apply M_Concat.
    + apply matches_plus_class. split; [exact Hne|].
      eapply Forall_impl; [|exact Hl]. intros c Hc. now apply local_class.
    + apply (M_Concat _ _ ["@"%char]).
      * constructor. reflexivity.
      * apply M_Concat; [now apply matches_email_label|].
        apply matches_dot_labels. exists labs. auto.
Qed.

(** X1.  [Email] accepts exactly the strings made of a non-empty local part
    of letters, digits and the bytes [.!#$%&'*+/=?^_`{|}~-], an '@', and
    one or more labels separated by dots, each of 1 to 63 letters, digits
    and hyphens with no hyphen at either end. *)
Theorem Email_spec (val : string) :
  Email val = true <->
  exists l labels,
    bytes val = (l ++ "@"%char :: join_dots labels)%list /\
    l <> [] /\ Forall email_local_byte l /\
    labels <> [] /\ Forall email_label_ok labels.
Proof.
  unfold Email. rewrite MatchString_matches. apply matches_emailRe.
Qed.

Lemma may_use_repeat0 (n : nat) (r : Regexp) (c : ascii) :
  may_use (Repeat0 n r) c = true -> may_use r c = true.
Proof.
  induction n as [|n IH]; simpl; [discriminate|].
  intro H. apply orb_true_iff in H as [H|H]; auto.
Qed.

Lemma may_use_email_label (c : ascii) :
  may_use email_label c = true -> alnum c \/ c = "-"%char.
Proof.
  unfold email_label, Quest. cbn [may_use]. rewrite !orb_true_iff.
  intros [H | [H | [H | H]]].
  - left. now apply alnum_class.
  - discriminate.
  - apply may_use_repeat0 in H. now apply alnum_hyphen_class.
  - left. now apply alnum_class.
Qed.

Lemma alnum_printable (c : ascii) :
  alnum c -> (33 <= nat_of_ascii c <= 126)%nat /\ c <> "@"%char.
Proof.
  unfold alnum. cbv zeta. intro H. split; [lia|].
  intros ->. change (nat_of_ascii "@") with 64%nat in H. lia.
Qed.

Lemma may_use_emailRe (c : ascii) :
  may_use emailRe c = true ->
  (33 <= nat_of_ascii c <= 126)%nat /\
  (c = "@"%char \/ email_local_byte c \/ alnum c \/ c = "-"%char
   \/ c = "."%char).
Proof.
  unfold emailRe, Plus, Literal. cbn [may_use]. rewrite !orb_true_iff.
  assert (Hloc : in_class email_local c = true ->
            (33 <= nat_of_ascii c <= 126)%nat /\ email_local_byte c).
  { intro H. apply local_class in H. split; [|exact H].
    destruct H as [H|H]; [now apply alnum_printable|].
    simpl in H.
    repeat (destruct H as [<- | H]; [cbv; lia|]). contradiction. }
  assert (Hsingle : forall x, in_class [(x, x)] c = true -> c = x).
  { intros x H. unfold in_class in H. simpl in H.
    rewrite range_single, orb_false_r in H. now apply Ascii.eqb_eq. }
  assert (Hlab : may_use email_label c = true ->
            (33 <= nat_of_ascii c <= 126)%nat /\ (alnum c \/ c = "-"%char)).
  { intro H. apply may_use_email_label in H. split; [|exact H].
    destruct H as [H | ->]; [now apply alnum_printable | cbv; lia]. }
  intros [[H | H] | [H | [H | [H | H]]]].
  - apply Hloc in H. tauto.
  - apply Hloc in H. tauto.
  - apply Hsingle in H. subst c. split; [cbv; lia | auto].
  - apply Hlab in H. tauto.
  - apply Hsingle in H. subst c. split; [cbv; lia | auto 10].
  - apply Hlab in H. tauto.
Qed.

Lemma count_occ_none (f : ascii -> Prop) (x : ascii) (l : list ascii) :
  Forall f l -> ~ f x -> count_occ ascii_dec l x = 0%nat.
Proof.
  intros Hl Hx. apply count_occ_not_In. intro Hin.
  rewrite Forall_forall in Hl. apply Hx. now apply Hl.
Qed.

Lemma matches_emailRe_one_at (w : list ascii) :
  matches emailRe w -> count_occ ascii_dec w "@"%char = 1%nat.
Proof.
  intro H.
  apply matches_emailRe in H as (l & labels & -> & _ & Hl & Hne & Hlabs).
  rewrite count_occ_app, count_occ_cons_eq by reflexivity.
  rewrite (count_occ_none email_local_byte _ _ Hl).
  - destruct labels as [|lab labs]; [contradiction|].
    assert (Hd : matches
              (Concat email_label
                 (Star (Concat (Literal ".") email_label)))
              (join_dots (lab :: labs))).
    { rewrite join_dots_cons. inversion Hlabs; subst.
      apply M_Concat; [now apply matches_email_label|].
      apply matches_dot_labels. eauto. }
    apply matches_may_use in Hd.
    rewrite (count_occ_none _ _ _ Hd); [reflexivity|].
    vm_compute. discriminate.
  - intros [Ha | Hin].
    + apply alnum_printable in Ha. tauto.
    + simpl in Hin.
      repeat (destruct Hin as [Hin | Hin]; [discriminate Hin|]).
      contradiction.
Qed.

(** X2.  An address that [Email] accepts holds exactly one '@', and only
    printable ASCII bytes other than the space. *)
Theorem Email_one_at_printable (val : string) :
  Email val = true ->
  count_occ ascii_dec (bytes val) "@"%char = 1%nat /\
  Forall (fun c => (33 <= nat_of_ascii c <= 126)%nat) (bytes val).
Proof.
  unfold Email. rewrite MatchString_matches. intro H. split.
  - now apply matches_emailRe_one_at.
  - apply matches_may_use in H. eapply Forall_impl; [|exact H].
    intros c Hc. now apply may_use_emailRe.
Qed.

Lemma Email_one_at_printable_witness :
  count_occ ascii_dec (bytes "john.doe@example.com") "@"%char = 1%nat.
Proof.
  apply (Email_one_at_printable "john.doe@example.com"). reflexivity.
Defined.

Example Email_plain : Email "john.doe@example.com" = true.
Proof. reflexivity. Qed.

Example Email_no_domain : Email "john.doe@" = false.
Proof. reflexivity. Qed.

Example Email_trailing_dot : Email "a@example.com." = false.
Proof. reflexivity. Qed.

Example Email_hyphen_first : Email "a@-example.com" = false.
Proof. reflexivity. Qed.

Example Email_space : Email "john doe@example.com" = false.
Proof. reflexivity. Qed.

End Email_facts.

(** ** Package validators: more on hostnames and identifiers *)

Module Hostname_facts.
Import Go Go_facts validators validators_facts validators_spec spec.

(** The loop of [IsHostname] does what [hostname_scan] does on the bytes
    that remain. *)
Lemma IsHostname_loop_scan (s : string) :
  forall suf pre st,
    s = pre ++ suf ->
    IsHostname_loop s (String.length suf) (len pre) st
    = Some match hostname_scan (bytes suf) st with
           | None => Return false
           | Some st' => Finished st'
           end.
Proof.
  induction suf as [|c suf IH]; intros pre st E.
  - reflexivity.
  - assert (Hi : index s (len pre) = Some c).
    { rewrite E. apply index_after_prefix. }
    assert (E' : s = (pre ++ String c "") ++ suf).
    { rewrite E. apply snoc_app. }
    simpl IsHostname_loop. rewrite Hi.
    unfold bytes. simpl. fold (bytes suf).
    unfold hostname_step. rewrite <- (len_snoc pre c).
    destruct (is_alpha_ c); [now apply IH|].
    destruct (is_digit c); [now apply IH|].
    destruct (Ascii.eqb c "-").
    { destruct (Ascii.eqb (last st) "."); [reflexivity | now apply IH]. }
    destruct (Ascii.eqb c "."); [|reflexivity].
    destruct (Ascii.eqb (last st) "." || Ascii.eqb (last st) "-");
      [reflexivity|].
    destruct ((partlen st >? 63) || (partlen st =? 0)); [reflexivity|].
    now apply IH.
Qed.

Lemma too_long_254_total (s : string) :
  exists b, too_long_254 s (len s) = Some b.
Proof.
  unfold too_long_254. destruct (Z.eqb_spec (len s) 254) as [E|E].
  - destruct (index_in_range s (len s - 1)) as [c Hc]; [lia|].
    rewrite Hc. eauto.
  - eauto.
Qed.

(** [IsHostname] in terms of [hostname_scan]. *)
Lemma IsHostname_scan_eq (s : string) (tl : bool) :
  s <> "." ->
  too_long_254 s (len s) = Some tl ->
  IsHostname s
  = Some (negb ((len s =? 0) || (len s >? 254)) && negb tl &&
          match hostname_scan (bytes s) hostname_start with
          | None => false
          | Some st =>
              negb (Ascii.eqb (last st) "-" || (partlen st >? 63))
              && nonNumeric st
          end).
Proof.
  intros Hd Ht. unfold IsHostname. apply String.eqb_neq in Hd. rewrite Hd.
  destruct ((len s =? 0) || (len s >? 254)); [reflexivity|].
  rewrite Ht. destruct tl; [reflexivity|].
  unfold len at 1. rewrite Nat2Z.id.
  pose proof (IsHostname_loop_scan s s "" hostname_start eq_refl) as R.
  change (len "") with 0 in R. unfold hostname_start in R at 1. rewrite R.
  destruct (hostname_scan (bytes s) hostname_start) as [st|]; [|reflexivity].
  simpl. now destruct (Ascii.eqb (last st) "-" || (partlen st >? 63)).
Qed.

Lemma bytes_app (a b : string) : bytes (a ++ b) = (bytes a ++ bytes b)%list.
Proof.
  unfold bytes. induction a as [|c a IH]; simpl; [reflexivity | now rewrite IH].
Qed.

Lemma length_bytes (s : string) : Z.of_nat (List.length (bytes s)) = len s.
Proof.
  unfold bytes, len. induction s as [|c s IH]; simpl List.length;
    simpl String.length; lia.
Qed.

Lemma ascii_letter_alnum (c : ascii) : ascii_letter c -> alnum c.
Proof. unfold ascii_letter, alnum. cbv zeta. tauto. Qed.

Lemma is_digit_alnum (c : ascii) : is_digit c = true -> alnum c.
Proof.
  unfold is_digit, alnum. rewrite andb_true_iff, !byte_le_spec.
  change (nat_of_ascii "0") with 48%nat. change (nat_of_ascii "9") with 57%nat.
  cbv zeta. tauto.
Qed.

(** The four ways in which a round of the loop goes on. *)
Lemma hostname_step_inv (st st' : hstate) (c : ascii) :
  hostname_step st c = Some st' ->
  (is_alpha_ c = true /\ c <> "."%char /\ c <> "-"%char /\
   st' = mk_hstate c true (partlen st + 1)) \/
  (is_digit c = true /\ c <> "."%char /\ c <> "-"%char /\
   st' = mk_hstate c (nonNumeric st) (partlen st + 1)) \/
  (c = "-"%char /\ last st <> "."%char /\
   st' = mk_hstate c true (partlen st + 1)) \/
  (c = "."%char /\ last st <> "."%char /\ last st <> "-"%char /\
   partlen st <= 63 /\ partlen st <> 0 /\
   st' = mk_hstate c (nonNumeric st) 0).
Proof.
  unfold hostname_step. intro H.
  destruct (is_alpha_ c) eqn:Ha.
  { left. injection H as <-. repeat split; auto; intros ->; discriminate. }
  destruct (is_digit c) eqn:Hg.
  { right; left. injection H as <-.
    repeat split; auto; intros ->; discriminate. }
  destruct (Ascii.eqb_spec c "-") as [->|Hh].
  { right; right; left.
    destruct (Ascii.eqb_spec (last st) ".") as [E|E]; [discriminate|].
    injection H as <-. auto. }
  destruct (Ascii.eqb_spec c ".") as [->|Hd]; [|discriminate].
  right; right; right.
  destruct (Ascii.eqb_spec (last st) ".") as [E|E]; [discriminate|].
  destruct (Ascii.eqb_spec (last st) "-") as [E2|E2]; [discriminate|].
  simpl in H.
  destruct (Z.gtb_spec (partlen st) 63) as [G|G]; [discriminate|].
  destruct (Z.eqb_spec (partlen st) 0) as [Z0|Z0]; [discriminate|].
  injection H as <-. repeat split; auto.
Qed.

Lemma hostname_step_last (st st' : hstate) (c : ascii) :
  hostname_step st c = Some st' -> last st' = c.
Proof.
  intro H. apply hostname_step_inv in H.
  destruct H as [(_ & _ & _ & ->) | [(_ & _ & _ & ->) | [(_ & _ & ->) |
                 (_ & _ & _ & _ & _ & ->)]]]; reflexivity.
Qed.

Lemma hostname_step_byte (st st' : hstate) (c : ascii) :
  hostname_step st c = Some st' -> hostname_byte c.
Proof.
  intro H. apply hostname_step_inv in H. unfold hostname_byte.
  destruct H as [(Ha & _) | [(Hg & _) | [(-> & _) | (-> & _)]]]; auto.
  - apply is_alpha__spec in Ha as [Ha| ->]; auto.
    left. now apply ascii_letter_alnum.
  - left. now apply is_digit_alnum.
Qed.

Lemma hostname_scan_app (l1 l2 : list ascii) :
  forall st,
    hostname_scan (l1 ++ l2) st
    = match hostname_scan l1 st with
      | None => None
      | Some st' => hostname_scan l2 st'
      end.
Proof.
  induction l1 as [|c l1 IH]; intro st; simpl; [reflexivity|].
  destruct (hostname_step st c); [apply IH | reflexivity].
Qed.

Lemma hostname_scan_bytes (l : list ascii) :
  forall st st', hostname_scan l st = Some st' -> Forall hostname_byte l.
Proof.
  induction l as [|c l IH]; intros st st' H; [constructor|].
  simpl in H. destruct (hostname_step st c) as [st1|] eqn:E; [|discriminate].
  constructor; [now apply hostname_step_byte in E | now apply IH in H].
Qed.

Lemma hostname_scan_snoc_last (l : list ascii) (z : ascii) (st st' : hstate) :
  hostname_scan (l ++ [z]) st = Some st' -> last st' = z.
Proof.
  rewrite hostname_scan_app. destruct (hostname_scan l st) as [st1|];
    [|discriminate].
  simpl. destruct (hostname_step st1 z) as [st2|] eqn:E; [|discriminate].
  intro H. injection H as <-. now apply hostname_step_last in E.
Qed.

(** The count of the bytes of the current label never goes down between two
    dots, and a dot is refused once it is over 63. *)
Lemma hostname_scan_partlen_back (l : list ascii) :
  forall st st',
    hostname_scan l st = Some st' -> partlen st' <= 63 -> partlen st <= 63.
Proof.
  induction l as [|c l IH]; intros st st' H Hb; simpl in H.
  - injection H as <-. exact Hb.
  - destruct (hostname_step st c) as [st1|] eqn:E; [|discriminate].
    pose proof (IH _ _ H Hb) as H1. apply hostname_step_inv in E.
    destruct E as [(_ & _ & _ & ->) | [(_ & _ & _ & ->) | [(_ & _ & ->) |
                   (_ & _ & _ & Hle & _ & ->)]]]; simpl in H1; lia.
Qed.

Lemma hostname_scan_no_dot (l : list ascii) :
  forall st st',
    hostname_scan l st = Some st' -> ~ In "."%char l ->
    partlen st' = partlen st + Z.of_nat (List.length l).
Proof.
  induction l as [|c l IH]; intros st st' H Hn; simpl in H.
  - injection H as <-. simpl. lia.
  - destruct (hostname_step st c) as [st1|] eqn:E; [|discriminate].
    rewrite (IH _ _ H) by (intro Hin; apply Hn; now right).
    apply hostname_step_inv in E.
    destruct E as [(_ & _ & _ & ->) | [(_ & _ & _ & ->) | [(_ & _ & ->) |
                   (-> & _)]]]; simpl List.length; simpl partlen; try lia.
    exfalso. apply Hn. now left.
Qed.

Lemma hostname_scan_partlen_nonneg (l : list ascii) :
  forall st st',
    hostname_scan l st = Some st' -> 0 <= partlen st -> 0 <= partlen st'.
Proof.
  induction l as [|c l IH]; intros st st' H H0; simpl in H.
  - now injection H as <-.
  - destruct (hostname_step st c) as [st1|] eqn:E; [|discriminate].
    apply (IH _ _ H). apply hostname_step_inv in E.
    destruct E as [(_ & _ & _ & ->) | [(_ & _ & _ & ->) | [(_ & _ & ->) |
                   (_ & _ & _ & _ & _ & ->)]]]; simpl; lia.
Qed.

(** What an accepted string other than "." went through. *)
Lemma IsHostname_true_inv (s : string) :
  IsHostname s = Some true ->
  s <> "." ->
  1 <= len s <= 254 /\
  exists st,
    hostname_scan (bytes s) hostname_start = Some st /\
    last st <> "-"%char /\ partlen st <= 63 /\ nonNumeric st = true.
Proof.
  intros H Hd. destruct (too_long_254_total s) as [tl Ht].
  rewrite (IsHostname_scan_eq s tl Hd Ht) in H. injection H as H.
  apply andb_true_iff in H as [H Hs]. apply andb_true_iff in H as [Hl _].
  apply negb_true_iff, orb_false_iff in Hl as [Hl0 Hl1].
  apply Z.eqb_neq in Hl0. rewrite Z.gtb_ltb in Hl1. apply Z.ltb_ge in Hl1.
  pose proof (len_nonneg s). split; [lia|].
  destruct (hostname_scan (bytes s) hostname_start) as [st|]; [|discriminate].
  exists st. split; [reflexivity|].
  apply andb_true_iff in Hs as [Hc Hn].
  apply negb_true_iff, orb_false_iff in Hc as [Hc1 Hc2].
  apply Ascii.eqb_neq in Hc1. rewrite Z.gtb_ltb in Hc2.
  apply Z.ltb_ge in Hc2. auto.
Qed.

(** X3.  [IsHostname] always returns: none of its indexings is out of
    range. *)
Theorem IsHostname_never_panics (s : string) :
  exists b, IsHostname s = Some b.
Proof.
  destruct (string_dec s ".") as [->|Hd]; [now exists true|].
  destruct (too_long_254_total s) as [tl Ht].
  rewrite (IsHostname_scan_eq s tl Hd Ht). eauto.
Qed.

(** X4.  A string that [IsHostname] accepts is "." or has 1 to 254 bytes,
    all of them letters, digits, '_', '-' or '.'; it does not start with a
    dot or a hyphen and does not end with a hyphen. *)
Theorem IsHostname_accepts_shape (s : string) :
  IsHostname s = Some true ->
  s = "." \/
  (1 <= len s <= 254 /\
   Forall hostname_byte (bytes s) /\
   (forall c rest, bytes s = c :: rest -> c <> "."%char /\ c <> "-"%char) /\
   (forall front z, bytes s = (front ++ [z])%list -> z <> "-"%char)).
Proof.
  intro H. destruct (string_dec s ".") as [->|Hd]; [now left|]. right.
  destruct (IsHostname_true_inv s H Hd) as (Hl & st & Hs & Hlast & _ & _).
  split; [exact Hl|]. split; [now apply hostname_scan_bytes in Hs|]. split.
  - intros c rest E. rewrite E in Hs. simpl in Hs.
    destruct (hostname_step hostname_start c) as [st1|] eqn:E1;
      [|discriminate].
    apply hostname_step_inv in E1. simpl in E1.
    destruct E1 as [(_ & ? & ? & _) | [(_ & ? & ? & _) | [(_ & ? & _) |
                    (_ & ? & _)]]]; try tauto; contradiction.
  - intros front z E. rewrite E in Hs.
    apply hostname_scan_snoc_last in Hs. congruence.
Qed.

Lemma IsHostname_accepts_shape_witness :
  "example.com" = "." \/
  (1 <= len "example.com" <= 254 /\
   Forall hostname_byte (bytes "example.com") /\
   (forall c rest, bytes "example.com" = c :: rest ->
      c <> "."%char /\ c <> "-"%char) /\
   (forall front z, bytes "example.com" = (front ++ [z])%list ->
      z <> "-"%char)).
Proof. apply (IsHostname_accepts_shape "example.com"). reflexivity. Defined.

(** X5.  In a string that [IsHostname] accepts, a dot is never followed by
    a dot or a hyphen, and a hyphen is never followed by a dot: no label is
    empty, and none starts or ends with a hyphen. *)
Theorem IsHostname_no_bad_neighbours (s : string) (pre suf : list ascii)
    (a b : ascii) :
  IsHostname s = Some true ->
  bytes s = (pre ++ a :: b :: suf)%list ->
  ~ (a = "."%char /\ b = "."%char) /\
  ~ (a = "."%char /\ b = "-"%char) /\
  ~ (a = "-"%char /\ b = "."%char).
Proof.
  intros H E.
  assert (Hd : s <> ".").
  { intros ->. destruct pre as [|x [|y pre]]; discriminate E. }
  destruct (IsHostname_true_inv s H Hd) as (_ & st & Hs & _).
  rewrite E, hostname_scan_app in Hs.
  destruct (hostname_scan pre hostname_start) as [st1|]; [|discriminate].
  simpl in Hs.
  destruct (hostname_step st1 a) as [st2|] eqn:Ea; [|discriminate].
  destruct (hostname_step st2 b) as [st3|] eqn:Eb; [|discriminate].
  apply hostname_step_last in Ea. apply hostname_step_inv in Eb.
  rewrite Ea in Eb.
  destruct Eb as [(_ & ? & ? & _) | [(_ & ? & ? & _) | [(? & ? & _) |
                  (? & ? & ? & _)]]]; subst;
    repeat split; intros [? ?]; subst; try contradiction; try discriminate.
Qed.

Lemma IsHostname_no_bad_neighbours_witness :
  ~ ("e"%char = "."%char /\ "."%char = "."%char).
Proof.
  apply (IsHostname_no_bad_neighbours "example.com"
           (bytes "exampl") (bytes "com") "e" ".");
    reflexivity.
Defined.

(** X6.  In a string that [IsHostname] accepts, every run of bytes without
    a dot has at most 63 bytes: no label is longer than 63. *)
Theorem IsHostname_label_bound (s : string) (pre lab suf : list ascii) :
  IsHostname s = Some true ->
  bytes s = (pre ++ lab ++ suf)%list ->
  ~ In "."%char lab ->
  (List.length lab <= 63)%nat.
Proof.
  intros H E Hn.
  destruct (string_dec s ".") as [->|Hd].
  { destruct pre as [|x pre]; simpl in E.
    - destruct lab as [|y lab]; [simpl; lia|].
      injection E as <- _. exfalso. apply Hn. now left.
    - injection E as _ E. destruct pre; [|discriminate E].
      destruct lab; [simpl; lia | discriminate E]. }
  destruct (IsHostname_true_inv s H Hd) as (_ & st & Hs & _ & Hp & _).
  rewrite E, hostname_scan_app in Hs.
  destruct (hostname_scan pre hostname_start) as [st1|] eqn:E1;
    [|discriminate].
  rewrite hostname_scan_app in Hs.
  destruct (hostname_scan lab st1) as [st2|] eqn:E2; [|discriminate].
  pose proof (hostname_scan_partlen_nonneg _ _ _ E1) as H1.
  simpl in H1. specialize (H1 (Z.le_refl 0)).
  pose proof (hostname_scan_no_dot _ _ _ E2 Hn) as H2.
  pose proof (hostname_scan_partlen_back _ _ _ Hs Hp) as H3. lia.
Qed.

Lemma IsHostname_label_bound_witness :
  (List.length (bytes "example") <= 63)%nat.
Proof.
  apply (IsHostname_label_bound "www.example.com"
           (bytes "www.") (bytes "example") (bytes ".com"));
    [reflexivity | reflexivity |].
  simpl. intro H. repeat (destruct H as [H|H]; [discriminate H|]).
  contradiction.
Defined.

Lemma hostname_scan_partlen_pos (l : list ascii) (z : ascii)
    (st : hstate) :
  hostname_scan (l ++ [z]) hostname_start = Some st ->
  z <> "."%char ->
  1 <= partlen st.
Proof.
  rewrite hostname_scan_app.
  destruct (hostname_scan l hostname_start) as [st1|] eqn:E1; [|discriminate].
  simpl. destruct (hostname_step st1 z) as [st2|] eqn:E2; [|discriminate].
  intros H Hz. injection H as <-.
  pose proof (hostname_scan_partlen_nonneg _ _ _ E1) as H1.
  simpl in H1. specialize (H1 (Z.le_refl 0)).
  apply hostname_step_inv in E2.
  destruct E2 as [(_ & _ & _ & ->) | [(_ & _ & _ & ->) | [(_ & _ & ->) |
                  (-> & _)]]]; simpl; try lia.
  contradiction.
Qed.

(** X7.  A final dot makes no difference: for a string that is not empty
    and does not end with a dot, [IsHostname] gives the same answer with a
    dot added at its end. *)
Theorem IsHostname_trailing_dot (s front : string) (z : ascii) :
  s = front ++ String z "" ->
  z <> "."%char ->
  IsHostname (s ++ ".") = IsHostname s.
Proof.
  intros E Hz.
  assert (Hb : bytes s = (bytes front ++ [z])%list).
  { rewrite E, bytes_app. reflexivity. }
  assert (Hlen : len s = len front + 1).
  { rewrite E. apply len_snoc. }
  pose proof (len_nonneg front) as Hf.
  assert (Hd : s <> ".").
  { intro Es. rewrite Es in Hb. destruct (bytes front) as [|x [|y l]];
      simpl in Hb; try discriminate Hb.
    injection Hb as Hb. now apply Hz. }
  assert (Hd' : s ++ "." <> ".").
  { intro Es. apply (f_equal len) in Es. rewrite len_app in Es.
    change (len ".") with 1 in Es. lia. }
  assert (Ht : too_long_254 s (len s) = Some (len s =? 254)).
  { unfold too_long_254. destruct (len s =? 254); [|reflexivity].
    replace (len s - 1) with (len front) by lia.
    rewrite E, index_after_prefix.
    apply Ascii.eqb_neq in Hz. now rewrite Hz. }
  assert (Ht' : too_long_254 (s ++ ".") (len (s ++ ".")) = Some false).
  { unfold too_long_254. destruct (len (s ++ ".") =? 254); [|reflexivity].
    rewrite len_app. change (len ".") with 1.
    replace (len s + 1 - 1) with (len s) by lia.
    now rewrite index_after_prefix. }
  rewrite (IsHostname_scan_eq _ _ Hd' Ht'), (IsHostname_scan_eq _ _ Hd Ht).
  f_equal. rewrite len_app. change (len ".") with 1.
  rewrite bytes_app, hostname_scan_app.
  change (bytes ".") with ["."%char].
  destruct (hostname_scan (bytes s) hostname_start) as [st|] eqn:Es.
  - rewrite Hb in Es.
    pose proof (hostname_scan_snoc_last _ _ _ _ Es) as Hlast.
    pose proof (hostname_scan_partlen_pos _ _ _ Es Hz) as Hpos.
    simpl hostname_scan. unfold hostname_step.
    change (is_alpha_ ".") with false. change (is_digit ".") with false.
    change (Ascii.eqb "." "-") with false. change (Ascii.eqb "." ".") with true.
    cbv iota. rewrite Hlast.
    apply Ascii.eqb_neq in Hz. rewrite Hz. simpl orb at 3.
    destruct (Ascii.eqb z "-"); simpl.
    + destruct (Z.eqb_spec (len s + 1) 0), (Z.gtb_spec (len s + 1) 254),
        (Z.eqb_spec (len s) 0), (Z.gtb_spec (len s) 254),
        (Z.eqb_spec (len s) 254); simpl; try reflexivity; lia.
    + destruct (Z.gtb_spec (partlen st) 63), (Z.eqb_spec (partlen st) 0);
        simpl; try lia;
        destruct (Z.eqb_spec (len s + 1) 0), (Z.gtb_spec (len s + 1) 254),
          (Z.eqb_spec (len s) 0), (Z.gtb_spec (len s) 254),
          (Z.eqb_spec (len s) 254); simpl; try reflexivity; lia.
  - destruct (Z.eqb_spec (len s + 1) 0), (Z.gtb_spec (len s + 1) 254),
      (Z.eqb_spec (len s) 0), (Z.gtb_spec (len s) 254),
      (Z.eqb_spec (len s) 254); simpl; try reflexivity; lia.
Qed.

Lemma IsHostname_trailing_dot_witness :
  IsHostname "example.com." = IsHostname "example.com".
Proof.
  apply (IsHostname_trailing_dot "example.com" "example.co" "m").
  - reflexivity.
  - discriminate.
Defined.

(** X8.  [Base64URL] always returns, and returns true exactly when the
    string has [expectLen] bytes, all of them letters, digits, '-' or '_';
    so for a negative [expectLen] it is false on every string. *)
Theorem Base64URL_spec (val : string) (expectLen : Z) :
  (exists b, Base64URL val expectLen = Some b) /\
  (Base64URL val expectLen = Some true <->
   len val = expectLen /\ Forall base64url_byte (bytes val)) /\
  (Base64URL val expectLen = Some false \/ 0 <= expectLen).
Proof.
  rewrite Base64URL_eq. split; [eauto|]. split.
  - split.
    + intro H. injection H as H. apply andb_true_iff in H as [Hl Hb].
      apply Z.eqb_eq in Hl. split; [exact Hl|].
      apply Forall_forall. intros c Hc. apply valid_spec.
      rewrite forallb_forall in Hb. now apply Hb.
    + intros [Hl Hb]. f_equal. apply andb_true_iff. split.
      * now apply Z.eqb_eq.
      * apply forallb_forall. intros c Hc. apply valid_spec.
        rewrite Forall_forall in Hb. now apply Hb.
  - destruct (Z.eqb_spec (len val) expectLen) as [E|E]; simpl.
    + right. pose proof (len_nonneg val). lia.
    + now left.
Qed.

End Hostname_facts.

(** ** Package validators: the domain of an e-mail address as a hostname *)

Module Email_Hostname_facts.
Import Go Go_facts regexp regexp_spec regexp_facts validators validators_facts
  validators_spec spec Email_facts Hostname_facts.

Lemma alnum_cases (c : ascii) :
  alnum c ->
  (is_alpha_ c = true /\ c <> "-"%char /\ c <> "."%char) \/
  (is_alpha_ c = false /\ is_digit c = true /\ c <> "-"%char /\
   c <> "."%char).
Proof.
  intro H. destruct (is_alpha_ c) eqn:Ha.
  - left. repeat split; intros ->; discriminate.
  - right. split; [reflexivity|].
    assert (Hn : ~ ascii_letter c).
    { intro Hl. assert (Ht : is_alpha_ c = true)
        by (apply is_alpha__spec; now left).
      congruence. }
    unfold alnum, ascii_letter in *. cbv zeta in *.
    assert (Hd : (48 <= nat_of_ascii c <= 57)%nat) by lia.
    split.
    + unfold is_digit. apply andb_true_iff. rewrite !byte_le_spec.
      exact Hd.
    + split; intros ->; cbv in Hd; lia.
Qed.

Lemma label_byte_step (st : hstate) (c : ascii) :
  alnum c \/ c = "-"%char ->
  (c = "-"%char -> last st <> "."%char) ->
  hostname_step st c
  = Some (mk_hstate c (nonNumeric st || non_numeric c) (partlen st + 1)).
Proof.
  intros H Hh. unfold hostname_step, non_numeric.
  destruct H as [H | ->].
  - destruct (alnum_cases c H) as [(Ha & _) | (Ha & Hg & Hm & _)].
    + rewrite Ha. simpl. now rewrite orb_true_r.
    + rewrite Ha, Hg. apply Ascii.eqb_neq in Hm. rewrite Hm. simpl.
      now rewrite orb_false_r.
  - change (is_alpha_ "-") with false. change (is_digit "-") with false.
    change (Ascii.eqb "-" "-") with true. cbv iota.
    specialize (Hh eq_refl). apply Ascii.eqb_neq in Hh. rewrite Hh.
    simpl. now rewrite orb_true_r.
Qed.

Lemma last_cons_default (l : list ascii) :
  forall c d, List.last (c :: l) d = List.last l c.
Proof.
  induction l as [|a l IH]; intros c d; [reflexivity|].
  change (List.last (c :: a :: l) d) with (List.last (a :: l) d).
  now rewrite !IH.
Qed.

Lemma label_bytes_scan (l : list ascii) :
  forall st,
    Forall (fun c => alnum c \/ c = "-"%char) l ->
    (forall c rest, l = c :: rest -> c = "-"%char -> last st <> "."%char) ->
    hostname_scan l st
    = Some (mk_hstate (List.last l (last st))
              (nonNumeric st || existsb non_numeric l)
              (partlen st + Z.of_nat (List.length l))).
Proof.
  induction l as [|c l IH]; intros st Hf Hfirst.
  - simpl. rewrite orb_false_r, Z.add_0_r. now destruct st.
  - inversion Hf as [|x y Hc Hl]; subst.
    cbn [hostname_scan].
    rewrite (label_byte_step st c Hc (Hfirst c l eq_refl)).
    rewrite IH; [|exact Hl|].
    + cbn [last nonNumeric partlen existsb]. f_equal. f_equal.
      * symmetry. apply last_cons_default.
      * now rewrite orb_assoc.
      * simpl List.length. lia.
    + intros c' rest _ _. cbn [last].
      destruct Hc as [Hc | ->]; [|discriminate].
      destruct (alnum_cases c Hc) as [(_ & _ & ?) | (_ & _ & _ & ?)];
        assumption.
Qed.

Lemma label_last_alnum (lab : list ascii) (d : ascii) :
  email_label_ok lab -> alnum (List.last lab d).
Proof.
  intros (_ & _ & _ & (front & z & -> & Hz)). now rewrite last_last.
Qed.

Lemma existsb_non_numeric_dot (l1 l2 : list ascii) :
  existsb non_numeric (l1 ++ "."%char :: l2)
  = existsb non_numeric l1 || existsb non_numeric l2.
Proof. rewrite existsb_app. reflexivity. Qed.

(** Scanning the labels of an e-mail domain from the start of a label. *)
Lemma domain_scan (labels : list (list ascii)) :
  forall st,
    labels <> [] ->
    Forall email_label_ok labels ->
    partlen st = 0 ->
    exists st',
      hostname_scan (join_dots labels) st = Some st' /\
      alnum (last st') /\
      1 <= partlen st' <= 63 /\
      nonNumeric st'
      = nonNumeric st || existsb non_numeric (join_dots labels).
Proof.
  induction labels as [|lab labels IH]; intros st Hne Hok Hp;
    [contradiction|].
  inversion Hok as [|x y Hlab Hrest]; subst.
  pose proof Hlab as (Hlen & Hf & (a & rest & Ea & Ha) & _).
  assert (Hrun : hostname_scan lab st
            = Some (mk_hstate (List.last lab (last st))
                      (nonNumeric st || existsb non_numeric lab)
                      (partlen st + Z.of_nat (List.length lab)))).
  { apply label_bytes_scan; [exact Hf|].
    intros c r E Hc. rewrite Ea in E. injection E as <- _. subst a.
    destruct (alnum_cases _ Ha) as [(_ & ? & _) | (_ & _ & ? & _)];
      contradiction. }
  pose proof (label_last_alnum lab (last st) Hlab) as Hlast.
  destruct labels as [|lab2 labels].
  - simpl join_dots. rewrite Hrun. eexists. split; [reflexivity|].
    cbn [last nonNumeric partlen]. split; [exact Hlast|]. split; [lia|].
    reflexivity.
  - change (join_dots (lab :: lab2 :: labels))
      with (lab ++ "."%char :: join_dots (lab2 :: labels))%list.
    rewrite hostname_scan_app, Hrun. cbn [hostname_scan].
    unfold hostname_step at 1.
    change (is_alpha_ ".") with false. change (is_digit ".") with false.
    change (Ascii.eqb "." "-") with false. change (Ascii.eqb "." ".") with true.
    cbn [last nonNumeric partlen]. cbv iota.
    destruct (alnum_cases _ Hlast) as [(_ & Hm & Hd) | (_ & _ & Hm & Hd)];
      apply Ascii.eqb_neq in Hm, Hd; rewrite Hm, Hd; simpl orb;
      (destruct (Z.gtb_spec (partlen st + Z.of_nat (List.length lab)) 63);
       [lia|]);
      (destruct (Z.eqb_spec (partlen st + Z.of_nat (List.length lab)) 0);
       [lia|]); simpl;
      (edestruct (IH (mk_hstate "."
                       (nonNumeric st || existsb non_numeric lab) 0))
        as (st' & Hs & Hl' & Hp' & Hn');
       [discriminate | exact Hrest | reflexivity |]);
      exists st'; (split; [exact Hs|]); (split; [exact Hl'|]);
      (split; [exact Hp'|]);
      rewrite Hn'; cbn [nonNumeric]; rewrite existsb_non_numeric_dot;
      now rewrite orb_assoc.
Qed.

Lemma split_at_unique (x : ascii) (l l' r r' : list ascii) :
  (l ++ x :: r = l' ++ x :: r')%list ->
  ~ In x l -> ~ In x l' ->
  l = l' /\ r = r'.
Proof.
  revert l'. induction l as [|a l IH]; intros [|a' l'] E Hl Hl'; simpl in E.
  - injection E as ->. auto.
  - injection E as <- _. exfalso. apply Hl'. now left.
  - injection E as -> _. exfalso. apply Hl. now left.
  - injection E as <- E.
    destruct (IH l' E) as [-> ->].
    + intro H. apply Hl. now right.
    + intro H. apply Hl'. now right.
    + auto.
Qed.

(** X9.  The two validators agree on domains: when [Email] accepts
    [l ++ "@" ++ d], the domain [d] has at most 253 bytes and holds a letter
    or a hyphen, then [IsHostname] accepts [d]. *)
Theorem Email_domain_IsHostname (l d : string) :
  Email (l ++ "@" ++ d) = true ->
  len d <= 253 ->
  (exists c, In c (bytes d) /\ (ascii_letter c \/ c = "-"%char)) ->
  IsHostname d = Some true.
Proof.
  unfold Email. rewrite MatchString_matches. intros H Hlen (c & Hin & Hc).
  pose proof (matches_emailRe_one_at _ H) as Hone.
  apply matches_emailRe in H as (l' & labels & E & _ & Hl' & Hne & Hok).
  rewrite !bytes_app in E, Hone. change (bytes "@") with ["@"%char] in E, Hone.
  simpl in E, Hone.
  rewrite count_occ_app, count_occ_cons_eq in Hone by reflexivity.
  assert (Hnl : ~ In "@"%char (bytes l)).
  { apply (count_occ_not_In ascii_dec). lia. }
  assert (Hnl' : ~ In "@"%char l').
  { intro Hi. rewrite Forall_forall in Hl'. destruct (Hl' _ Hi) as [Ha|Ha].
    - apply alnum_printable in Ha. tauto.
    - simpl in Ha. repeat (destruct Ha as [Ha|Ha]; [discriminate Ha|]).
      contradiction. }
  destruct (split_at_unique _ _ _ _ _ E Hnl Hnl') as [_ Ed].
  destruct (domain_scan labels hostname_start Hne Hok eq_refl)
    as (st & Hs & Hlast & Hp & Hn).
  rewrite <- Ed in Hs, Hn.
  assert (Hd : d <> ".").
  { intros ->. simpl in Hin. destruct Hin as [<-|[]].
    destruct Hc as [Hc | Hc]; [cbv in Hc; lia | discriminate]. }
  assert (Ht : too_long_254 d (len d) = Some false).
  { unfold too_long_254. destruct (Z.eqb_spec (len d) 254); [lia|reflexivity]. }
  rewrite (IsHostname_scan_eq d false Hd Ht), Hs. f_equal.
  assert (Hl0 : len d <> 0).
  { intro Z0. apply len_empty_iff in Z0. subst d. contradiction. }
  pose proof (len_nonneg d).
  destruct (Z.eqb_spec (len d) 0); [lia|].
  destruct (Z.gtb_spec (len d) 254); [lia|].
  destruct (Z.gtb_spec (partlen st) 63); [lia|].
  destruct (alnum_cases _ Hlast) as [(_ & Hm & _) | (_ & _ & Hm & _)];
    apply Ascii.eqb_neq in Hm; rewrite Hm; simpl; rewrite Hn; simpl;
    apply existsb_exists; exists c; (split; [exact Hin|]);
    unfold non_numeric; apply orb_true_iff;
    (destruct Hc as [Hc | ->];
     [left; apply is_alpha__spec; now left | now right]).
Qed.

Lemma Email_domain_IsHostname_witness :
  IsHostname "example.com" = Some true.
Proof.
  apply (Email_domain_IsHostname "john.doe" "example.com").
  - reflexivity.
  - unfold len. simpl. lia.
  - exists "e"%char. split; [simpl; tauto | left; cbv; lia].
Defined.

End Email_Hostname_facts.

(** ** Package server: more on TLS resolution *)

Module loadTLSConfig_more.
Import Go Go_facts server server_spec server_spec_more loadTLSConfig_facts.

Section WithPlatform.
Context {X509Cert Certificate Provider GetCertFn : Type}.
Variable P : @Platform X509Cert Certificate Provider GetCertFn.

(** The mutual-TLS step touches only the client-auth mode and the CAs. *)
Lemma setClientAuth_keeps (cfg : Config) (dir : string) (tc tc' : TLSConfig) :
  setClientAuth P cfg dir tc = Ok tc' ->
  MinVersion tc' = MinVersion tc /\
  Certificates tc' = Certificates tc /\
  GetCertificate tc' = GetCertificate tc /\
  (TLSClientAuth cfg = false -> tc' = tc).
Proof.
  unfold setClientAuth. destruct (TLSClientAuth cfg).
  - destruct (loadCACert P cfg dir) as [ca|e]; [|discriminate].
    destruct (AppendCertsFromPEM P NewCertPool ca) as [pool ok].
    destruct ok; simpl; [|discriminate].
    intro H. injection H as <-. simpl. repeat split. discriminate.
  - intro H. injection H as <-. auto.
Qed.

(** The three results of the server-certificate step that are not
    errors. *)
Lemma setServerCert_ok_inv (cfg : Config) (dir : string) (tc : TLSConfig)
    (otc : option TLSConfig) (ow : option tlsCertWatchFn) :
  setServerCert P cfg dir tc = Ok (otc, ow) ->
  (otc = None /\ ow = None) \/
  (exists cert,
     TLSCertPEM cfg <> "" /\ TLSKeyPEM cfg <> "" /\
     tls_X509KeyPair P (TLSCertPEM cfg) (TLSKeyPEM cfg) = Ok cert /\
     otc = Some (mk_TLSConfig (MinVersion tc) (ClientAuth tc) (ClientCAs tc)
                   [cert] (GetCertificate tc)) /\
     ow = None) \/
  (exists p,
     TLSCertPEM cfg = "" /\ TLSKeyPEM cfg = "" /\ dir <> "" /\
     newTLSCertProvider P dir = Ok (Some p) /\
     otc = Some (mk_TLSConfig (MinVersion tc) (ClientAuth tc) (ClientCAs tc)
                   (Certificates tc) (Some (GetCertificateFn P p))) /\
     ow = Some (Watch P p)).
Proof.
  unfold setServerCert.
  destruct (String.eqb_spec (TLSCertPEM cfg) "") as [Hc|Hc],
           (String.eqb_spec (TLSKeyPEM cfg) "") as [Hk|Hk]; simpl.
  - destruct (String.eqb_spec dir "") as [Hd|Hd].
    + intro H. injection H as <- <-. now left.
    + destruct (newTLSCertProvider P dir) as [[p|]|e] eqn:Hp.
      * intro H. injection H as <- <-. right; right. exists p. auto 10.
      * intro H. injection H as <- <-. now left.
      * discriminate.
  - intro H. injection H as <- <-. now left.
  - intro H. injection H as <- <-. now left.
  - destruct (tls_X509KeyPair P (TLSCertPEM cfg) (TLSKeyPEM cfg))
      as [cert|e] eqn:Hp; [|discriminate].
    intro H. injection H as <- <-. right; left. exists cert. auto 10.
Qed.

(** X10.  Every TLS configuration that [loadTLSConfig] returns has the
    minimum version [minTLSVersion]; and when client authentication is not
    requested it asks for no client certificate and has no client CAs. *)
Theorem loadTLSConfig_floor_and_default (cfg : Config) (tc : TLSConfig)
    (w : option tlsCertWatchFn) :
  loadTLSConfig P cfg = Ok (Some tc, w) ->
  MinVersion tc = minTLSVersion P /\
  (TLSClientAuth cfg = false ->
   ClientAuth tc = NoClientCert /\ ClientCAs tc = None).
Proof.
  unfold loadTLSConfig. intro H.
  destruct (setClientAuth P cfg (resolveTLSPath P cfg) (newTLSConfig P))
    as [tc1|e] eqn:H1; [|discriminate].
  destruct (setClientAuth_keeps _ _ _ _ H1) as (Hm & _ & _ & Hoff).
  apply setServerCert_ok_inv in H.
  destruct H as [[? _] | [(cert & _ & _ & _ & E & _) |
                 (p & _ & _ & _ & _ & E & _)]]; [discriminate | |];
    injection E as ->; simpl; (split; [exact Hm|]);
    intro Hc; rewrite (Hoff Hc); auto.
Qed.

(** X11.  A result of [loadTLSConfig] that is not an error is of one of
    three kinds: no TLS at all, with no watch function; a static
    certificate (both inline values given, exactly one certificate, no
    callback, no watch function); or certificates from the directory (no
    inline value, no static certificate, the callback and the watch function
    of the same provider). *)
Theorem loadTLSConfig_modes (cfg : Config) (otc : option TLSConfig)
    (ow : option tlsCertWatchFn) :
  loadTLSConfig P cfg = Ok (otc, ow) ->
  (otc = None /\ ow = None) \/
  (exists tc cert,
     otc = Some tc /\ ow = None /\
     TLSCertPEM cfg <> "" /\ TLSKeyPEM cfg <> "" /\
     tls_X509KeyPair P (TLSCertPEM cfg) (TLSKeyPEM cfg) = Ok cert /\
     Certificates tc = [cert] /\ GetCertificate tc = None) \/
  (exists tc p,
     otc = Some tc /\ ow = Some (Watch P p) /\
     TLSCertPEM cfg = "" /\ TLSKeyPEM cfg = "" /\
     resolveTLSPath P cfg <> "" /\
     newTLSCertProvider P (resolveTLSPath P cfg) = Ok (Some p) /\
     Certificates tc = [] /\
     GetCertificate tc = Some (GetCertificateFn P p)).
Proof.
  unfold loadTLSConfig. intro H.
  destruct (setClientAuth P cfg (resolveTLSPath P cfg) (newTLSConfig P))
    as [tc1|e] eqn:H1; [|discriminate].
  destruct (setClientAuth_keeps _ _ _ _ H1) as (_ & Hc & Hg & _).
  simpl in Hc, Hg.
  apply setServerCert_ok_inv in H.
  destruct H as [? | [(cert & ? & ? & ? & -> & ->) |
                 (p & ? & ? & ? & ? & -> & ->)]].
  - now left.
  - right; left. eexists; exists cert. simpl. auto 10.
  - right; right. eexists; exists p. simpl. auto 10.
Qed.

(** X12.  With no inline certificate and key and a TLS directory, the
    result follows the scan of the directory once the mutual-TLS step is
    through: a provider gives a configuration with its callback and its
    watch function, no certificate files give [(nil, nil, nil)], and an
    error of the scan is returned wrapped. *)
Theorem loadTLSConfig_directory (cfg : Config) (tc1 : TLSConfig) :
  TLSCertPEM cfg = "" ->
  TLSKeyPEM cfg = "" ->
  resolveTLSPath P cfg <> "" ->
  setClientAuth P cfg (resolveTLSPath P cfg) (newTLSConfig P) = Ok tc1 ->
  loadTLSConfig P cfg
  = match newTLSCertProvider P (resolveTLSPath P cfg) with
    | Ok (Some p) =>
        Ok (Some (mk_TLSConfig (minTLSVersion P) (ClientAuth tc1)
                    (ClientCAs tc1) [] (Some (GetCertificateFn P p))),
            Some (Watch P p))
    | Ok None => Ok (None, None)
    | Err e =>
        Err (Errorf_w
               ("failed to load TLS certificates from path '"
                ++ resolveTLSPath P cfg ++ "'") e)
    end.
Proof.
  intros Hc Hk Hd H1. unfold loadTLSConfig. rewrite H1.
  destruct (setClientAuth_keeps _ _ _ _ H1) as (Hm & Hcs & _).
  simpl in Hm, Hcs.
  unfold setServerCert. rewrite Hc, Hk, (eqb_empty_false _ Hd). simpl.
  destruct (newTLSCertProvider P (resolveTLSPath P cfg)) as [[p|]|e];
    try reflexivity.
  now rewrite Hm, Hcs.
Qed.

(** X13.  With both inline values given but not forming a valid pair,
    [loadTLSConfig] returns the error of [tls.X509KeyPair], wrapped, once
    the mutual-TLS step is through. *)
Theorem loadTLSConfig_inline_pair_invalid (cfg : Config) (e : error) :
  TLSCertPEM cfg <> "" ->
  TLSKeyPEM cfg <> "" ->
  tls_X509KeyPair P (TLSCertPEM cfg) (TLSKeyPEM cfg) = Err e ->
  client_auth_ready P cfg ->
  loadTLSConfig P cfg
  = Err (Errorf_w "failed to parse TLS certificate or key" e).
Proof.
  intros Hc Hk Hp [tc1 H1]. unfold loadTLSConfig. rewrite H1.
  unfold setServerCert.
  now rewrite (eqb_empty_false _ Hc), (eqb_empty_false _ Hk), Hp.
Qed.

(** X14.  The errors of [loadTLSConfig] are these five and no other: the
    three of the mutual-TLS step, which need client authentication to be
    requested, the wrapped error of the directory scan and the wrapped error
    of the inline pair. *)
Theorem loadTLSConfig_errors (cfg : Config) (e : error) :
  loadTLSConfig P cfg = Err e ->
  (TLSClientAuth cfg = true /\
   (e = errors_New "cannot find a CA certificate, which is required when `tlsClientAuth` is enabled: no path specified in option `tlsPath`, and no config file was loaded"
    \/ (exists e',
          os_ReadFile P
            (filepath_Join P (resolveTLSPath P cfg) (tlsCAFile P)) = Err e' /\
          e = Errorf_w ("failed to load CA certificate file from path '"
                        ++ resolveTLSPath P cfg
                        ++ "' and 'tlsClientAuth' option is enabled") e')
    \/ e = errors_New
             ("failed to import CA certificate from PEM found at path '"
              ++ resolveTLSPath P cfg ++ "'"))) \/
  (exists e',
     newTLSCertProvider P (resolveTLSPath P cfg) = Err e' /\
     e = Errorf_w ("failed to load TLS certificates from path '"
                   ++ resolveTLSPath P cfg ++ "'") e') \/
  (exists e',
     tls_X509KeyPair P (TLSCertPEM cfg) (TLSKeyPEM cfg) = Err e' /\
     e = Errorf_w "failed to parse TLS certificate or key" e').
Proof.
  unfold loadTLSConfig. intros H.
  set (dir := resolveTLSPath P cfg) in *.
  destruct (setClientAuth P cfg dir (newTLSConfig P)) as [tc1|e1] eqn:H1.
  - right. unfold setServerCert in H.
    destruct (String.eqb (TLSCertPEM cfg) "" && String.eqb (TLSKeyPEM cfg) "").
    + destruct (String.eqb dir ""); [discriminate|].
      destruct (newTLSCertProvider P dir) as [[p|]|e'] eqn:Hp;
        try discriminate.
      injection H as <-. left. eauto.
    + destruct (String.eqb (TLSCertPEM cfg) "" || String.eqb (TLSKeyPEM cfg) "");
        [discriminate|].
      destruct (tls_X509KeyPair P (TLSCertPEM cfg) (TLSKeyPEM cfg))
        as [cert|e'] eqn:Hp; [discriminate|].
      injection H as <-. right. eauto.
  - injection H as <-. left. unfold setClientAuth in H1.
    destruct (TLSClientAuth cfg); [|discriminate]. split; [reflexivity|].
    unfold loadCACert in H1.
    destruct (len (TLSCAPEM cfg) >? 0).
    + destruct (AppendCertsFromPEM P NewCertPool (TLSCAPEM cfg)) as [pool ok].
      destruct ok; simpl in H1; [discriminate|]. injection H1 as <-. auto.
    + destruct (String.eqb dir "").
      * injection H1 as <-. auto.
      * destruct (os_ReadFile P (filepath_Join P dir (tlsCAFile P)))
          as [b|e'] eqn:Hr.
        -- destruct (AppendCertsFromPEM P NewCertPool b) as [pool ok].
           destruct ok; simpl in H1; [discriminate|]. injection H1 as <-. auto.
        -- injection H1 as <-. right; left. eauto.
Qed.

(** X15.  The CA file is read only when it is needed: with client
    authentication off, or with an inline CA, the result of [loadTLSConfig]
    does not depend on the file system. *)
Theorem loadTLSConfig_no_file_read (cfg : Config)
    (readFile : string -> result string) :
  TLSClientAuth cfg = false \/ TLSCAPEM cfg <> "" ->
  loadTLSConfig (with_ReadFile P readFile) cfg = loadTLSConfig P cfg.
Proof.
  intro H. unfold loadTLSConfig.
  change (resolveTLSPath (with_ReadFile P readFile) cfg)
    with (resolveTLSPath P cfg).
  assert (E : setClientAuth (with_ReadFile P readFile) cfg
                (resolveTLSPath P cfg) (newTLSConfig (with_ReadFile P readFile))
              = setClientAuth P cfg (resolveTLSPath P cfg) (newTLSConfig P)).
  { unfold setClientAuth, loadCACert. destruct H as [H|H].
    - now rewrite H.
    - rewrite (len_gtb_nonempty _ H). reflexivity. }
  rewrite E. reflexivity.
Qed.

(** X16.  The directory is scanned only when no inline value is given: with
    an inline certificate or an inline key, the result of [loadTLSConfig]
    does not depend on the directory scan. *)
Theorem loadTLSConfig_no_directory_scan (cfg : Config)
    (newProvider : string -> result (option Provider)) :
  TLSCertPEM cfg <> "" \/ TLSKeyPEM cfg <> "" ->
  loadTLSConfig (with_Provider P newProvider) cfg = loadTLSConfig P cfg.
Proof.
  intro H. unfold loadTLSConfig.
  change (resolveTLSPath (with_Provider P newProvider) cfg)
    with (resolveTLSPath P cfg).
  change (setClientAuth (with_Provider P newProvider) cfg
            (resolveTLSPath P cfg) (newTLSConfig (with_Provider P newProvider)))
    with (setClientAuth P cfg (resolveTLSPath P cfg) (newTLSConfig P)).
  destruct (setClientAuth P cfg (resolveTLSPath P cfg) (newTLSConfig P))
    as [tc1|e]; [|reflexivity].
  unfold setServerCert.
  assert (E : String.eqb (TLSCertPEM cfg) "" && String.eqb (TLSKeyPEM cfg) ""
              = false).
  { destruct H as [H|H]; rewrite (eqb_empty_false _ H);
      [reflexivity | apply andb_false_r]. }
  rewrite E. reflexivity.
Qed.

(** X17.  The option [tlsPath] wins over the folder of the configuration
    file: when it is set, the result of [loadTLSConfig] does not depend on
    where the configuration was loaded from. *)
Theorem loadTLSConfig_tlsPath_wins (cfg : Config) (file : string) :
  TLSPath cfg <> "" ->
  loadTLSConfig P (with_LoadedConfigPath cfg file) = loadTLSConfig P cfg.
Proof.
  intro H. unfold loadTLSConfig.
  assert (E : resolveTLSPath P (with_LoadedConfigPath cfg file)
              = resolveTLSPath P cfg).
  { unfold resolveTLSPath. simpl. now rewrite (eqb_empty_false _ H). }
  rewrite E. reflexivity.
Qed.

End WithPlatform.

Lemma loadTLSConfig_floor_and_default_witness :
  exists tc,
    loadTLSConfig demo.platform demo.cfg_pair = Ok (Some tc, None) /\
    MinVersion tc = 771 /\
    ClientAuth tc = NoClientCert.
Proof.
  eexists. split; [reflexivity|].
  destruct (loadTLSConfig_floor_and_default demo.platform demo.cfg_pair
              _ None eq_refl) as [Hm Hc].
  split; [exact Hm|]. apply Hc. reflexivity.
Defined.

Lemma loadTLSConfig_modes_witness :
  exists p,
    newTLSCertProvider demo.platform
      (resolveTLSPath demo.platform demo_more.cfg_directory_mtls)
    = Ok (Some p).
Proof.
  destruct (loadTLSConfig_modes demo.platform demo_more.cfg_directory_mtls
              _ _ eq_refl)
    as [[H _] | [(tc & cert & _ & H & _) | (tc & p & _ & _ & _ & _ & _ & H & _)]].
  - discriminate H.
  - discriminate H.
  - exists p. exact H.
Defined.

Lemma loadTLSConfig_directory_witness :
  exists tc,
    loadTLSConfig demo.platform demo_more.cfg_directory_mtls
    = Ok (Some tc, Some (Watch demo.platform "/etc/tfa")) /\
    ClientAuth tc = VerifyClientCertIfGiven /\
    GetCertificate tc = Some "/etc/tfa".
Proof.
  assert (Hd : resolveTLSPath demo.platform demo_more.cfg_directory_mtls
               <> "") by discriminate.
  eexists. split.
  - rewrite (loadTLSConfig_directory demo.platform
               demo_more.cfg_directory_mtls _ eq_refl eq_refl Hd eq_refl).
    reflexivity.
  - split; reflexivity.
Defined.

Lemma loadTLSConfig_inline_pair_invalid_witness :
  loadTLSConfig demo.platform demo_more.cfg_pair_invalid
  = Err (Errorf_w "failed to parse TLS certificate or key"
           (errors_New "tls: failed to find any PEM data")).
Proof.
  apply (loadTLSConfig_inline_pair_invalid demo.platform
           demo_more.cfg_pair_invalid).
  - discriminate.
  - discriminate.
  - reflexivity.
  - eexists. reflexivity.
Defined.

Lemma loadTLSConfig_errors_witness :
  exists e, tls_X509KeyPair demo.platform "CERT" "BAD" = Err e.
Proof.
  destruct (loadTLSConfig_errors demo.platform demo_more.cfg_pair_invalid
              _ eq_refl)
    as [[H _] | [(e' & H & _) | (e' & H & _)]].
  - discriminate H.
  - discriminate H.
  - exists e'. exact H.
Defined.

Lemma loadTLSConfig_no_file_read_witness :
  loadTLSConfig (with_ReadFile demo.platform demo_more.no_files)
    demo.cfg_pair_mtls
  = loadTLSConfig demo.platform demo.cfg_pair_mtls.
Proof.
  apply (loadTLSConfig_no_file_read demo.platform demo.cfg_pair_mtls).
  right. discriminate.
Defined.

Lemma loadTLSConfig_no_directory_scan_witness :
  loadTLSConfig (with_Provider demo.platform demo_more.no_scan)
    demo.cfg_cert_only
  = loadTLSConfig demo.platform demo.cfg_cert_only.
Proof.
  apply (loadTLSConfig_no_directory_scan demo.platform demo.cfg_cert_only).
  left. discriminate.
Defined.

Lemma loadTLSConfig_tlsPath_wins_witness :
  loadTLSConfig demo.platform
    (with_LoadedConfigPath demo_more.cfg_directory_mtls "/home/tfa/config.yaml")
  = loadTLSConfig demo.platform demo_more.cfg_directory_mtls.
Proof.
  apply (loadTLSConfig_tlsPath_wins demo.platform
           demo_more.cfg_directory_mtls).
  discriminate.
Defined.

End loadTLSConfig_more.

(** ** Package server: more on supervision *)

Module Run_more.
Import Go server server_spec server_spec_more Run_facts.

(** Takes a call of [Run] on an idle server apart, case by case. *)
Ltac run_cases H :=
  cbv in H; repeat (run_case H; cbv beta iota in H);
  injection H as <- <- <-.

Section WithEnv.
Context {X509Cert Certificate GetCertFn Listener : Type}.
Local Abbreviation Server := (@Server X509Cert Certificate GetCertFn Listener).
Variable env : @Env Listener.


(** X19.  [Run] starts things in order: the application server before the
    metrics server, and both before the watch function is called; and when
    the application server does not start, nothing is done about the
    metrics server. *)
Theorem Run_startup_order (cfg : Config) (ctx : Context) (s s' : Server)
    (tr : list event) (out : outcome) :
  idle s ->
  Run env cfg ctx s = (s', tr, out) ->
  (In (EvGo MetricsServer) tr ->
   precedes (EvGo AppServer) (EvGo MetricsServer) tr) /\
  (In EvWatch tr ->
   precedes (EvGo AppServer) EvWatch tr /\
   (EnableMetrics cfg = true -> precedes (EvGo MetricsServer) EvWatch tr)) /\
  (~ In (EvGo AppServer) tr ->
   Forall (fun e => concerns MetricsServer e = false) tr).
Proof.
  intros [Hr Hw] H.
  destruct env as [jhp nl sd], cfg, ctx as [done], s as [aS mS wf tc r w aL mL].
  simpl in Hr, Hw. subst r w. destruct EnableMetrics0; run_cases H; simpl.
  all: split; [intro Hi; first [in_absurd Hi | order_solve]|].
  all: split;
    [intro Hi; first
       [ in_absurd Hi
       | split;
         [order_solve | intro Hd; first [discriminate Hd | order_solve]] ]|].
  all: intro Hn; first
    [ exfalso; apply Hn; solve [in_solve]
    | repeat constructor ].
Qed.

(** X20.  [Run] shuts a server down at most once, only after having started
    it, and with its own time limit: 5 seconds for the application server,
    500 milliseconds for the metrics server.  When [Run] returns, every
    server that it started has been shut down. *)
Theorem Run_shutdown_discipline (cfg : Config) (ctx : Context) (s s' : Server)
    (tr : list event) (out : outcome) (which : srv_name) :
  idle s ->
  Run env cfg ctx s = (s', tr, out) ->
  (List.length (filter (is_shutdown which) tr) <= 1)%nat /\
  (forall t, In (EvShutdown which t) tr ->
     t = shutdown_timeout which /\
     precedes (EvGo which) (EvShutdown which t) tr) /\
  ((exists r, out = Returns r) ->
   In (EvGo which) tr ->
   In (EvShutdown which (shutdown_timeout which)) tr).
Proof.
  intros [Hr Hw] H.
  destruct env as [jhp nl sd], cfg, ctx as [done], s as [aS mS wf tc r w aL mL].
  simpl in Hr, Hw. subst r w.
  destruct EnableMetrics0; run_cases H; destruct which; simpl.
  all: split; [lia|].
  all: split;
    [intros tmo Hi;
     repeat (destruct Hi as [Hi|Hi]; [try discriminate Hi|]);
     first [ contradiction
           | injection Hi as <-; split; [reflexivity | order_solve] ]|].
  all: intros [r0 Hout] Hgo; try discriminate Hout.
  all: first [in_absurd Hgo | in_solve].
Qed.

(** X21.  A listener given to the server is used as it is: [Run] does not
    call [net.Listen] for that server and leaves the listener in place. *)
Theorem Run_keeps_given_listeners (cfg : Config) (ctx : Context)
    (s s' : Server) (tr : list event) (out : outcome) :
  idle s ->
  Run env cfg ctx s = (s', tr, out) ->
  (forall l, appListener s = Some l ->
     appListener s' = Some l /\
     forall a, ~ In (EvListen AppServer a) tr) /\
  (forall l, metricsListener s = Some l ->
     metricsListener s' = Some l /\
     forall a, ~ In (EvListen MetricsServer a) tr).
Proof.
  intros [Hr Hw] H.
  destruct env as [jhp nl sd], cfg, ctx as [done], s as [aS mS wf tc r w aL mL].
  simpl in Hr, Hw. subst r w.
  destruct EnableMetrics0; run_cases H; simpl.
  all: split; intros lsn Hlsn; try discriminate Hlsn;
    (split; [exact Hlsn | intros adr Hi; in_absurd Hi]).
Qed.

(** X22.  With metrics disabled, [Run] does nothing about the metrics
    server: no listener, no start, no shutdown, and the server value and
    the listener are left as they were. *)
Theorem Run_metrics_disabled (cfg : Config) (ctx : Context) (s s' : Server)
    (tr : list event) (out : outcome) :
  idle s ->
  EnableMetrics cfg = false ->
  Run env cfg ctx s = (s', tr, out) ->
  metricsSrv s' = metricsSrv s /\
  metricsListener s' = metricsListener s /\
  Forall (fun e => concerns MetricsServer e = false) tr.
Proof.
  intros [Hr Hw] Hm H.
  destruct env as [jhp nl sd], cfg, ctx as [done], s as [aS mS wf tc r w aL mL].
  simpl in Hr, Hw, Hm. subst r w EnableMetrics0. run_cases H; simpl.
  all: split; [reflexivity|]; split; [reflexivity|]; repeat constructor.
Qed.

(** X23.  Once started, the application server has the address of the
    configuration and serves with the TLS configuration of the server when
    there is one, and over the cleartext HTTP/2 handler when there is none;
    the metrics server never has a TLS configuration. *)
Theorem Run_server_values (cfg : Config) (ctx : Context) (s s' : Server)
    (tr : list event) (out : outcome) :
  idle s ->
  Run env cfg ctx s = (s', tr, out) ->
  (In (EvGo AppServer) tr ->
   appSrv s'
   = Some (mk_HttpServer (JoinHostPort env (Bind cfg) (Port cfg))
             (match tlsConfig s with
              | Some _ => AppRouter
              | None => H2CHandler
              end)
             (tlsConfig s) 1048576 10000)) /\
  (In (EvGo MetricsServer) tr ->
   metricsSrv s'
   = Some (mk_HttpServer
             (JoinHostPort env (MetricsBind cfg) (MetricsPort cfg))
             MetricsMux None 1048576 10000)) /\
  tlsConfig s' = tlsConfig s /\
  srv_tlsCertWatchFn s' = srv_tlsCertWatchFn s.
Proof.
  intros [Hr Hw] H.
  destruct env as [jhp nl sd], cfg, ctx as [done], s as [aS mS wf tc r w aL mL].
  simpl in Hr, Hw. subst r w.
  destruct EnableMetrics0; run_cases H; simpl.
  all: split; [intro Hi; first [in_absurd Hi | reflexivity]|].
  all: split; [intro Hi; first [in_absurd Hi | reflexivity]|].
  all: split; reflexivity.
Qed.

(** The first thing a call of [Run] on an idle server does is to add one to
    the wait group. *)
Lemma Run_idle_first_event (cfg : Config) (ctx : Context) (s s' : Server)
    (tr : list event) (out : outcome) :
  idle s ->
  Run env cfg ctx s = (s', tr, out) ->
  exists tr', tr = EvWgAdd 1 :: tr'.
Proof.
  intros [Hr Hw] H.
  destruct env as [jhp nl sd], cfg, ctx as [done], s as [aS mS wf tc r w aL mL].
  simpl in Hr, Hw. subst r w.
  destruct EnableMetrics0; run_cases H; eexists; reflexivity.
Qed.

Lemma Run_blocked_flag (cfg : Config) (ctx : Context) (s s' : Server)
    (tr : list event) (p : block_point) :
  idle s ->
  Run env cfg ctx s = (s', tr, Blocks p) ->
  running s' = true.
Proof.
  intros [Hr Hw] H.
  destruct env as [jhp nl sd], cfg, ctx as [done], s as [aS mS wf tc r w aL mL].
  simpl in Hr, Hw. subst r w.
  destruct EnableMetrics0; cbv in H;
    repeat (run_case H; cbv beta iota in H);
    try discriminate H; injection H as <- <- <-; reflexivity.
Qed.

End WithEnv.

Section TwoCalls.
Context {X509Cert Certificate GetCertFn Listener : Type}.
Local Abbreviation Server := (@Server X509Cert Certificate GetCertFn Listener).
Variables env env2 : @Env Listener.

(** X24.  A call of [Run] that returns leaves the server idle, so that [Run]
    can be called again: the next call is not refused, it starts by taking
    the wait group. *)
Theorem Run_can_run_again (cfg cfg2 : Config) (ctx ctx2 : Context)
    (s s' s2 : Server) (tr tr2 : list event) (r : option error)
    (out2 : outcome) :
  idle s ->
  Run env cfg ctx s = (s', tr, Returns r) ->
  Run env2 cfg2 ctx2 s' = (s2, tr2, out2) ->
  idle s' /\
  ends_with [EvWgWait; EvStoreRunning false] tr /\
  exists tr2', tr2 = EvWgAdd 1 :: tr2'.
Proof.
  intros Hi H H2.
  destruct (Run_returns_resets_flag env cfg ctx s s' tr r
              (proj1 Hi) (proj2 Hi) H) as (Hr & Hw & _).
  assert (Hi' : idle s') by (split; assumption).
  split; [exact Hi'|]. split.
  - clear H2. destruct Hi as [Hr0 Hw0].
    destruct env as [jhp nl sd], cfg, ctx as [done],
      s as [aS mS wf tc r0 w aL mL].
    simpl in Hr0, Hw0. subst r0 w.
    destruct EnableMetrics0; cbv in H;
      repeat (run_case H; cbv beta iota in H);
      try discriminate H; injection H as <- <- <-; ends_solve.
  - exact (Run_idle_first_event env2 cfg2 ctx2 s' s2 tr2 out2 Hi' H2).
Qed.

(** X25.  While a call of [Run] is blocked, waiting for the cancellation or
    stuck in [wg.Wait()], any other call is refused with the "already
    running" error and changes nothing. *)
Theorem Run_refused_while_blocked (cfg cfg2 : Config) (ctx ctx2 : Context)
    (s s' : Server) (tr : list event) (p : block_point) :
  idle s ->
  Run env cfg ctx s = (s', tr, Blocks p) ->
  Run env2 cfg2 ctx2 s'
  = (s', [], Returns (Some (errors_New "server is already running"))).
Proof.
  intros Hi H. apply Run_already_running.
  exact (Run_blocked_flag env cfg ctx s s' tr p Hi H).
Qed.

End TwoCalls.

Section FromNewServer.
Context {X509Cert Certificate Provider GetCertFn Listener : Type}.
Local Abbreviation Server := (@Server X509Cert Certificate GetCertFn Listener).
Variable P : @Platform X509Cert Certificate Provider GetCertFn.
Variable env : @Env Listener.

Lemma NewServer_inv (cfg : Config) (s : Server) :
  NewServer P cfg = Ok s ->
  idle s /\
  loadTLSConfig P cfg = Ok (tlsConfig s, srv_tlsCertWatchFn s) /\
  appListener s = None /\ metricsListener s = None.
Proof.
  unfold NewServer.
  destruct (loadTLSConfig P cfg) as [[tc w]|e]; [|discriminate].
  intro H. injection H as <-. simpl. repeat split.
Qed.

(** X26.  A server made by [NewServer] and then run serves with what
    [loadTLSConfig] resolved for the configuration: once the application
    server is started it has that TLS configuration, or the cleartext
    HTTP/2 handler when TLS is disabled; and the watch function is called
    only if [loadTLSConfig] returned one. *)
Theorem NewServer_then_Run (cfg : Config) (ctx : Context) (s s' : Server)
    (tr : list event) (out : outcome) :
  NewServer P cfg = Ok s ->
  Run env cfg ctx s = (s', tr, out) ->
  exists otc ow,
    loadTLSConfig P cfg = Ok (otc, ow) /\
    (In (EvGo AppServer) tr ->
     exists srv,
       appSrv s' = Some srv /\
       SrvTLSConfig srv = otc /\
       (otc = None <-> Handler srv = H2CHandler)) /\
    (In EvWatch tr -> ow <> None).
Proof.
  intros HN H. destruct (NewServer_inv cfg s HN) as (Hi & Hl & _).
  exists (tlsConfig s), (srv_tlsCertWatchFn s). split; [exact Hl|].
  clear HN Hl. destruct Hi as [Hr Hw].
  destruct env as [jhp nl sd], cfg, ctx as [done], s as [aS mS wf tc r w aL mL].
  simpl in Hr, Hw. subst r w.
  destruct EnableMetrics0; run_cases H; simpl.
  all: split;
    [intro Hi; first
       [ in_absurd Hi
       | eexists; split; [reflexivity|]; split; [reflexivity|];
         split; intro Hx; first [reflexivity | discriminate Hx] ]
    | intro Hi; first [in_absurd Hi | discriminate] ].
Qed.

End FromNewServer.

Lemma Run_startup_order_witness :
  exists s' tr out,
    Run demo.env_ok demo.cfg_nothing demo_more.cancelled demo.fresh_bad_watch
    = (s', tr, out) /\
    precedes (EvGo AppServer) (EvGo MetricsServer) tr /\
    precedes (EvGo MetricsServer) EvWatch tr.
Proof.
  eexists. eexists. eexists. split; [cbv; reflexivity|].
  edestruct (Run_startup_order demo.env_ok demo.cfg_nothing
               demo_more.cancelled demo.fresh_bad_watch)
    as (H1 & H2 & _).
  - split; reflexivity.
  - cbv. reflexivity.
  - split.
    + apply H1. in_solve.
    + apply H2; [in_solve | reflexivity].
Defined.

Lemma Run_shutdown_discipline_witness :
  exists s' tr,
    Run demo.env_ok demo.cfg_nothing demo_more.cancelled demo.fresh
    = (s', tr, Returns None) /\
    In (EvShutdown MetricsServer 500) tr /\
    (List.length (filter (is_shutdown MetricsServer) tr) <= 1)%nat.
Proof.
  eexists. eexists. split; [cbv; reflexivity|].
  pose proof (fun s' tr out =>
                Run_shutdown_discipline demo.env_ok demo.cfg_nothing
                  demo_more.cancelled demo.fresh s' tr out MetricsServer)
    as T.
  edestruct T as (H1 & _ & H3).
  - split; reflexivity.
  - cbv. reflexivity.
  - split; [|exact H1].
    apply H3; [eexists; reflexivity | in_solve].
Defined.

Lemma Run_keeps_given_listeners_witness :
  exists s' tr out,
    Run demo.env_port_taken demo.cfg_nothing demo_more.cancelled
      demo_more.fresh_with_listener
    = (s', tr, out) /\
    appListener s' = Some "pipe" /\
    out = Returns None.
Proof.
  eexists. eexists. eexists. split; [cbv; reflexivity|].
  edestruct (Run_keeps_given_listeners demo.env_port_taken demo.cfg_nothing
               demo_more.cancelled demo_more.fresh_with_listener)
    as (H1 & _).
  - split; reflexivity.
  - cbv. reflexivity.
  - split; [|reflexivity].
    destruct (H1 "pipe" eq_refl) as [H _]. exact H.
Defined.

Lemma Run_metrics_disabled_witness :
  exists s' tr out,
    Run demo.env_ok demo_more.cfg_no_metrics demo_more.cancelled demo.fresh
    = (s', tr, out) /\
    metricsSrv s' = None /\
    Forall (fun e => concerns MetricsServer e = false) tr.
Proof.
  eexists. eexists. eexists. split; [cbv; reflexivity|].
  edestruct (Run_metrics_disabled demo.env_ok demo_more.cfg_no_metrics
               demo_more.cancelled demo.fresh)
    as (H1 & _ & H3).
  - split; reflexivity.
  - reflexivity.
  - cbv. reflexivity.
  - split; [exact H1 | exact H3].
Defined.

Lemma Run_server_values_witness :
  exists s' tr out srv,
    Run demo.env_ok demo.cfg_nothing demo_more.cancelled demo.fresh
    = (s', tr, out) /\
    appSrv s' = Some srv /\
    Handler srv = H2CHandler.
Proof.
  eexists. eexists. eexists. eexists. split; [cbv; reflexivity|].
  edestruct (Run_server_values demo.env_ok demo.cfg_nothing
               demo_more.cancelled demo.fresh)
    as (H1 & _).
  - split; reflexivity.
  - cbv. reflexivity.
  - split; [apply H1; in_solve | reflexivity].
Defined.

Lemma Run_can_run_again_witness :
  exists s' tr s2 tr2 out2,
    Run demo.env_ok demo.cfg_nothing demo_more.cancelled demo.fresh
    = (s', tr, Returns None) /\
    Run demo.env_ok demo.cfg_nothing demo_more.forever s' = (s2, tr2, out2) /\
    idle s' /\
    out2 = Blocks AtCtxDone.
Proof.
  eexists. eexists. eexists. eexists. eexists.
  split; [cbv; reflexivity|]. split; [cbv; reflexivity|].
  edestruct (Run_can_run_again demo.env_ok demo.env_ok demo.cfg_nothing
               demo.cfg_nothing demo_more.cancelled demo_more.forever
               demo.fresh)
    as (H1 & _).
  - split; reflexivity.
  - cbv. reflexivity.
  - cbv. reflexivity.
  - split; [exact H1 | reflexivity].
Defined.

Lemma Run_refused_while_blocked_witness :
  exists s' tr,
    Run demo.env_ok demo.cfg_nothing demo_more.forever demo.fresh
    = (s', tr, Blocks AtCtxDone) /\
    Run demo.env_ok demo.cfg_nothing demo_more.cancelled s'
    = (s', [], Returns (Some (errors_New "server is already running"))).
Proof.
  eexists. eexists. split; [cbv; reflexivity|].
  eapply (Run_refused_while_blocked demo.env_ok demo.env_ok demo.cfg_nothing
            demo.cfg_nothing demo_more.forever demo_more.cancelled demo.fresh).
  - split; reflexivity.
  - cbv. reflexivity.
Defined.

Lemma NewServer_then_Run_witness :
  exists s s' tr out,
    @NewServer _ _ _ _ string demo.platform demo.cfg_nothing = Ok s /\
    Run demo.env_ok demo.cfg_nothing demo_more.cancelled s = (s', tr, out) /\
    loadTLSConfig demo.platform demo.cfg_nothing = Ok (None, None) /\
    ~ In EvWatch tr.
Proof.
  eexists. eexists. eexists. eexists.
  split; [cbv; reflexivity|]. split; [cbv; reflexivity|].
  edestruct (@NewServer_then_Run _ _ _ _ string demo.platform demo.env_ok
               demo.cfg_nothing demo_more.cancelled)
    as (otc & ow & Hl & _ & Hw).
  - cbv. reflexivity.
  - cbv. reflexivity.
  - assert (E : Ok (otc, ow)
                = @Ok (option (@TLSConfig string (string * string) string)
                       * option tlsCertWatchFn) (None, None)).
    { rewrite <- Hl. reflexivity. }
    injection E as -> ->.
    split; [reflexivity|]. intro Hi. now apply Hw in Hi.
Defined.

End Run_more.

(** ** Package server: [Run] and the serving goroutines *)

Module Run_goroutines_facts.
Import Go server server_spec server_spec_more server_goroutines Run_facts
  Run_more.

Lemma precedes_In {A : Type} (a b : A) (l : list A) :
  precedes a b l -> In a l /\ In b l.
Proof.
  intros (l1 & l2 & l3 & ->). split.
  - apply in_or_app. right. now left.
  - apply in_or_app. right. right. apply in_or_app. right. now left.
Qed.

Lemma precedes_across {A : Type} (a b : A) (l1 l2 : list A) :
  In a l1 -> In b l2 -> precedes a b (l1 ++ l2).
Proof.
  intros Ha Hb. apply in_split in Ha as (u & v & ->).
  apply in_split in Hb as (x & y & ->).
  exists u, (v ++ x)%list, y. now rewrite <- !app_assoc.
Qed.

Lemma precedes_cons_inv {A : Type} (a b x : A) (l : list A) :
  precedes a b (x :: l) -> (x = a /\ In b l) \/ precedes a b l.
Proof.
  intros (l1 & l2 & l3 & E). destruct l1 as [|y l1]; simpl in E.
  - injection E as -> ->. left. split; [reflexivity|].
    apply in_or_app. right. now left.
  - injection E as -> ->. right. exists l1, l2, l3. reflexivity.
Qed.

Lemma precedes_nil {A : Type} (a b : A) : ~ precedes a b [].
Proof. intros (l1 & l2 & l3 & E). destruct l1; discriminate E. Qed.

Lemma interleave_app {A : Type} (l1 l2 : list A) :
  interleave l1 l2 (l1 ++ l2).
Proof.
  induction l1 as [|a l1 IH]; simpl.
  - induction l2 as [|b l2 IH]; constructor. exact IH.
  - constructor. exact IH.
Qed.

(** The schedule in which both goroutines take all their steps after [Run]
    has returned is an execution, as soon as [Run] started and shut down
    both servers. *)
Lemma late_execution (tr : list event) (ret : option error)
    (ta tm : bool) :
  In (EvGo AppServer) tr ->
  In (EvGo MetricsServer) tr ->
  In (EvShutdown AppServer 5000) tr ->
  In (EvShutdown MetricsServer 500) tr ->
  execution tr ret
    (goroutine AppServer ta ErrServerClosed)
    (goroutine MetricsServer tm ErrServerClosed)
    ((map OfRun tr ++ [RunReturns ret])
     ++ map OfGo (goroutine AppServer ta ErrServerClosed
                  ++ goroutine MetricsServer tm ErrServerClosed)).
Proof.
  intros Hga Hgm Hsa Hsm.
  assert (Hrun : forall g, ~ In (OfGo g) (map OfRun tr ++ [RunReturns ret])).
  { intros g Hin. apply in_app_or in Hin as [Hin|Hin].
    - apply in_map_iff in Hin as (e & E & _). discriminate E.
    - simpl in Hin. destruct Hin as [E|[]]. discriminate E. }
  assert (Hof : forall e, In e tr ->
            In (OfRun e) (map OfRun tr ++ [RunReturns ret])).
  { intros e He. apply in_or_app. left. now apply in_map. }
  split; [|split].
  - eexists. split; apply interleave_app.
  - intros w tls Hin. apply in_app_or in Hin as [Hin|Hin].
    + now apply Hrun in Hin.
    + apply precedes_across; [|exact Hin].
      apply in_map_iff in Hin as (g & E & Hg). injection E as ->.
      apply Hof. simpl in Hg.
      repeat (destruct Hg as [Hg|Hg];
              [first [discriminate Hg | injection Hg as <- <-; assumption]|]).
      contradiction.
  - intros w Hin. apply in_app_or in Hin as [Hin|Hin].
    + now apply Hrun in Hin.
    + apply precedes_across; [|exact Hin].
      apply in_map_iff in Hin as (g & E & Hg). injection E as ->.
      apply Hof. simpl in Hg.
      repeat (destruct Hg as [Hg|Hg];
              [first [discriminate Hg | injection Hg as <-; assumption]|]).
      contradiction.
Qed.

Lemma late_execution_order (tr : list event) (ret : option error)
    (ga gm : list go_event) (g : go_event) :
  In g (ga ++ gm) ->
  precedes (RunReturns ret) (OfGo g)
    ((map OfRun tr ++ [RunReturns ret]) ++ map OfGo (ga ++ gm)).
Proof.
  intro H. apply precedes_across.
  - apply in_or_app. right. now left.
  - now apply in_map.
Qed.

Ltac not_precedes H :=
  repeat (apply precedes_cons_inv in H as [[E Hin] | H];
          [first [discriminate E | in_absurd Hin]|]);
  now apply precedes_nil in H.

Section WithEnv.
Context {X509Cert Certificate GetCertFn Listener : Type}.
Local Abbreviation Server := (@Server X509Cert Certificate GetCertFn Listener).
Local Abbreviation machine :=
  (@machine X509Cert Certificate GetCertFn Listener).
Variable env : @Env Listener.

(** When [Run] returns after having started both servers, it has added to
    the wait group twice and taken from it twice, the second time after the
    [Shutdown] of the application server and before it waits. *)
Lemma Run_wait_group_accounting (cfg : Config) (ctx : Context)
    (s s' : Server) (tr : list event) (r : option error) :
  running s = false ->
  wg s = 0 ->
  Run env cfg ctx s = (s', tr, Returns r) ->
  In (EvGo AppServer) tr ->
  In (EvGo MetricsServer) tr ->
  List.length (filter is_wg_add tr) = 2%nat /\
  List.length (filter is_wg_done tr) = 2%nat /\
  precedes (EvShutdown AppServer 5000) EvWgDone tr /\
  precedes EvWgDone EvWgWait tr.
Proof.
  intros Hr Hw H Ha Hm.
  destruct env as [jhp nl sd], cfg, ctx as [done], s as [aS mS wf tc r0 w aL mL].
  simpl in Hr, Hw. subst r0 w. destruct EnableMetrics0; cbv in H;
    repeat (run_case H; cbv beta iota in H);
    try discriminate H; injection H as <- <- <-;
    try (in_absurd Ha); try (in_absurd Hm).
  all: split; [reflexivity|]. all: split; [reflexivity|].
  all: split; order_solve.
Qed.

Lemma wg_Wait_spec (m : machine) :
  snd (wg_Wait m)
  = if wg (m_srv m) =? 0 then Next tt else Halt (Blocked AtWgWait).
Proof.
  unfold wg_Wait, bind, emit, get_srv, ret. simpl.
  now destruct (wg (m_srv m) =? 0).
Qed.

(** C7, as the code has it.  Take any call of [Run] on an idle server in
    which both servers were started.  If the context is cancelled, [Run]
    returns; if the call got past the wait for the cancellation it returns
    nil, and the shutdown comes after the cancellation.  Unless the call
    stays blocked on a context that is never cancelled, the metrics server
    is shut down before the application server, and [Run] returns after its
    deferred [wg.Wait()] and the reset of the flag.  That wait is on the two
    deferred shutdown closures: the wait group was added to twice and taken
    from twice, the last time at the end of the closure of the application
    server, so that the wait, which would block on any other counter, finds
    zero.  It is not a wait for the serving goroutines, which never touch
    the wait group: there is an execution in which both of them end after
    [Run] has returned. *)
Theorem Run_shutdown_order_wait_group (cfg : Config) (ctx : Context)
    (s s' : Server) (tr : list event) (out : outcome) :
  running s = false ->
  wg s = 0 ->
  Run env cfg ctx s = (s', tr, out) ->
  In (EvGo AppServer) tr ->
  In (EvGo MetricsServer) tr ->
  (ctx_done ctx = true -> exists r, out = Returns r) /\
  (In EvCtxDone tr ->
   out = Returns None /\
   precedes EvCtxDone (EvShutdown MetricsServer 500) tr) /\
  (out = Blocks AtCtxDone \/
   (precedes (EvShutdown MetricsServer 500) (EvShutdown AppServer 5000) tr /\
    precedes (EvShutdown AppServer 5000) EvWgWait tr /\
    ends_with [EvWgWait; EvStoreRunning false] tr /\
    wg s' = 0 /\
    running s' = false /\
    List.length (filter is_wg_add tr) = 2%nat /\
    List.length (filter is_wg_done tr) = 2%nat /\
    precedes (EvShutdown AppServer 5000) EvWgDone tr /\
    precedes EvWgDone EvWgWait tr /\
    exists r,
      out = Returns r /\
      exists full,
        execution tr r
          (goroutine AppServer (serves_tls s AppServer) ErrServerClosed)
          (goroutine MetricsServer (serves_tls s MetricsServer)
             ErrServerClosed)
          full /\
        precedes (RunReturns r) (OfGo (GoEnd AppServer)) full /\
        precedes (RunReturns r) (OfGo (GoEnd MetricsServer)) full)) /\
  (forall m : machine,
     snd (wg_Wait m)
     = if wg (m_srv m) =? 0 then Next tt else Halt (Blocked AtWgWait)).
Proof.
  intros Hr Hw H Ha Hm.
  destruct (Run_shutdown_order env cfg ctx s s' tr out Hr Hw H Ha Hm)
    as (H1 & H2 & H3).
  split; [exact H1|]. split; [exact H2|]. split; [|exact wg_Wait_spec].
  destruct H3 as [H3 | (Hma & Haw & Hend & Hw' & Hr' & (r & ->))];
    [now left | right].
  destruct (Run_wait_group_accounting cfg ctx s s' tr r Hr Hw H Ha Hm)
    as (Hadd & Hdone & Had & Hdw).
  repeat (split; [assumption|]).
  exists r. split; [reflexivity|].
  destruct (precedes_In _ _ _ Hma) as [Hsm Hsa].
  eexists. split; [apply late_execution; assumption|].
  split; apply late_execution_order; simpl; tauto.
Qed.

End WithEnv.

Lemma Run_shutdown_order_wait_group_witness :
  exists s' tr,
    Run demo.env_ok demo.cfg_nothing demo_more.cancelled demo.fresh
    = (s', tr, Returns None) /\
    precedes EvCtxDone (EvShutdown MetricsServer 500) tr /\
    precedes (EvShutdown MetricsServer 500) (EvShutdown AppServer 5000) tr /\
    precedes (EvShutdown AppServer 5000) EvWgWait tr /\
    List.length (filter is_wg_done tr) = 2%nat.
Proof.
  eexists. eexists. split; [cbv; reflexivity|].
  edestruct (Run_shutdown_order_wait_group demo.env_ok demo.cfg_nothing
               demo_more.cancelled demo.fresh)
    as (_ & H2 & [H3 | (H3 & H4 & _ & _ & _ & _ & H5 & _)] & _).
  - reflexivity.
  - reflexivity.
  - cbv. reflexivity.
  - in_solve.
  - in_solve.
  - discriminate H3.
  - split; [|split; [exact H3 | split; [exact H4 | exact H5]]].
    apply H2. in_solve.
Defined.

(** [Run] on [demo.fresh] in [demo.env_ok], with a cancelled context, starts
    both servers and returns nil; and [late_close_schedule] is an execution
    of it in which [Run] returns before either serving goroutine has closed
    its listener and ended: in that execution [Run] has not waited for the
    background tasks that it started. *)
Lemma Run_returns_before_goroutines_end :
  exists s' tr,
    Run demo.env_ok demo.cfg_nothing demo_more.cancelled demo.fresh
    = (s', tr, Returns None) /\
    In (EvGo AppServer) tr /\ In (EvGo MetricsServer) tr /\
    execution tr None
      (goroutine AppServer (serves_tls demo.fresh AppServer) ErrServerClosed)
      (goroutine MetricsServer (serves_tls demo.fresh MetricsServer)
         ErrServerClosed)
      demo_goroutines.late_close_schedule /\
    precedes (RunReturns None) (OfGo (GoEnd AppServer))
      demo_goroutines.late_close_schedule /\
    precedes (RunReturns None) (OfGo (GoEnd MetricsServer))
      demo_goroutines.late_close_schedule /\
    ~ precedes (OfGo (GoEnd AppServer)) (RunReturns None)
        demo_goroutines.late_close_schedule /\
    ~ precedes (OfGo (GoEnd MetricsServer)) (RunReturns None)
        demo_goroutines.late_close_schedule.
Proof.
  eexists. eexists. split; [cbv; reflexivity|].
  split; [in_solve|]. split; [in_solve|]. split; [|split; [|split; [|split]]].
  - split; [|split].
    + exists demo_goroutines.goroutine_steps. split.
      * unfold demo_goroutines.goroutine_steps, goroutine. simpl.
        repeat first [ apply interleave_nil | apply interleave_left
                     | apply interleave_right ].
      * unfold demo_goroutines.goroutine_steps,
          demo_goroutines.late_close_schedule. simpl.
        repeat first [ apply interleave_nil | apply interleave_left
                     | apply interleave_right ].
    + intros w tls Hin. unfold demo_goroutines.late_close_schedule in *.
      simpl in Hin.
      repeat (destruct Hin as [Hin|Hin];
              [first [discriminate Hin
                     | injection Hin as <- <-; order_solve]|]).
      contradiction.
    + intros w Hin. unfold demo_goroutines.late_close_schedule in *.
      simpl in Hin.
      repeat (destruct Hin as [Hin|Hin];
              [first [discriminate Hin
                     | injection Hin as <-; simpl; order_solve]|]).
      contradiction.
  - unfold demo_goroutines.late_close_schedule. order_solve.
  - unfold demo_goroutines.late_close_schedule. order_solve.
  - unfold demo_goroutines.late_close_schedule. intro H. not_precedes H.
  - unfold demo_goroutines.late_close_schedule. intro H. not_precedes H.
Qed.




Section Endings.
Context {X509Cert Certificate GetCertFn Listener : Type}.
Local Abbreviation Server := (@Server X509Cert Certificate GetCertFn Listener).
Variable env : @Env Listener.


End Endings.


End Run_goroutines_facts.
